(** * nav2_route: path densification, route server and edge scoring

    A shallow embedding of [nav2_route::PathConverter] (path_converter.cpp),
    of [nav2_route::RouteServer] (route_server.cpp) and of the edge-scoring
    plugins exercised by test_edge_scorers.cpp.

    Numbers.  The path converter computes in C++ [float], the route server
    in [double]: IEEE-754 binary32 and binary64, here [spec_float] at
    precision 24 and 53, with signed zeros, infinities and NaN, and every
    operation rounded to nearest-even on its own (no fused multiply-add,
    as a compiler does for baseline x86-64).  [unsigned int] is a [Z] in
    [0, 2^32) with its wrap-around written out.  The scoring plugins are
    not among the sources; they are modelled from the specification, whose
    costs are real numbers: the type [float] below. *)

From Stdlib Require Import Reals Lra Lia ZArith List Bool SpecFloat.
From Equations Require Import Equations.
From stdpp Require Import gmap strings sorting.

Import ListNotations.
#[local] Open Scope Z_scope.

(** ** Costs of the specification

    A cost of the specification is a real number, or one of the special
    values a division by zero gives. *)

Inductive float : Type :=
| FReal (r : R)
| FInf (neg : bool)
| FNaN.

Definition Rneg (r : R) : bool := if Rlt_dec r 0 then true else false.
Definition Rzero (r : R) : bool := if Req_dec_T r 0 then true else false.

Definition fopp (a : float) : float :=
  match a with
  | FReal r => FReal (- r)
  | FInf s => FInf (negb s)
  | FNaN => FNaN
  end.

Definition fadd (a b : float) : float :=
  match a, b with
  | FNaN, _ | _, FNaN => FNaN
  | FReal r1, FReal r2 => FReal (r1 + r2)
  | FInf s, FReal _ | FReal _, FInf s => FInf s
  | FInf s1, FInf s2 => if Bool.eqb s1 s2 then FInf s1 else FNaN
  end.

Definition fsub (a b : float) : float := fadd a (fopp b).

Definition fmul (a b : float) : float :=
  match a, b with
  | FNaN, _ | _, FNaN => FNaN
  | FReal r1, FReal r2 => FReal (r1 * r2)
  | FInf s, FReal r | FReal r, FInf s =>
      if Rzero r then FNaN else FInf (xorb s (Rneg r))
  | FInf s1, FInf s2 => FInf (xorb s1 s2)
  end.

(** A zero divisor is taken as [+0]. *)
Definition fdiv (a b : float) : float :=
  match a, b with
  | FNaN, _ | _, FNaN => FNaN
  | FReal r1, FReal r2 =>
      if Rzero r2 then (if Rzero r1 then FNaN else FInf (Rneg r1))
      else FReal (r1 / r2)
  | FReal _, FInf _ => FReal 0
  | FInf s, FReal r => FInf (xorb s (Rneg r))
  | FInf _, FInf _ => FNaN
  end.

(** The Euclidean length of a displacement. *)
Definition euclidean (a b : float) : float :=
  match a, b with
  | FInf _, _ | _, FInf _ => FInf false
  | FNaN, _ | _, FNaN => FNaN
  | FReal r1, FReal r2 => FReal (sqrt (r1 * r1 + r2 * r2))
  end.

(** ** Single and double precision *)

(** C++ [float]: IEEE-754 binary32. *)
Definition binary32 : Type := spec_float.

(** C++ [double]: IEEE-754 binary64. *)
Definition double : Type := spec_float.

Definition add32 : binary32 -> binary32 -> binary32 := SFadd 24 128.
Definition sub32 : binary32 -> binary32 -> binary32 := SFsub 24 128.
Definition mul32 : binary32 -> binary32 -> binary32 := SFmul 24 128.
Definition div32 : binary32 -> binary32 -> binary32 := SFdiv 24 128.

Definition div64 : double -> double -> double := SFdiv 53 1024.

(** The [float] and the [double] nearest to an integer. *)
Definition f32 (n : Z) : binary32 := binary_normalize 24 128 n 0 false.
Definition f64 (n : Z) : double := binary_normalize 53 1024 n 0 false.

#[global] Arguments f32 : simpl never.
#[global] Arguments f64 : simpl never.

(** A zero or a finite nonzero number: neither an infinity nor NaN. *)
Definition is_finite (a : spec_float) : bool :=
  match a with
  | S754_zero _ | S754_finite _ _ _ => true
  | _ => false
  end.

(** [a != 0] for a number: neither a zero nor NaN. *)
Definition is_nonzero_number (a : spec_float) : bool :=
  match a with
  | S754_finite _ _ _ | S754_infinity _ => true
  | _ => false
  end.

(** [ceil]: the least integer not below [a], with the sign of [a] on a
    zero result.  A value with a non-negative exponent is an integer
    already; the result of the other case is below [2^24] in magnitude
    and so exact. *)
Definition ceil (a : binary32) : binary32 :=
  match a with
  | S754_finite s m e =>
      if 0 <=? e then a
      else binary_normalize 24 128 (- ((- cond_Zopp s (Zpos m)) / 2 ^ (- e))) 0 s
  | _ => a
  end.

(** The value of [a] with its fraction discarded. *)
Definition Ztrunc (a : spec_float) : option Z :=
  match a with
  | S754_zero _ => Some 0
  | S754_finite s m e =>
      Some (cond_Zopp s (if 0 <=? e then Zpos m * 2 ^ e else Zpos m / 2 ^ (- e)))
  | _ => None
  end.

(** The integer [a] is, when it is one. *)
Definition to_integer (a : spec_float) : option Z :=
  match a with
  | S754_zero _ => Some 0
  | S754_finite s m e =>
      if 0 <=? e then Some (cond_Zopp s (Zpos m * 2 ^ e))
      else if Zpos m mod 2 ^ (- e) =? 0
           then Some (cond_Zopp s (Zpos m / 2 ^ (- e)))
           else None
  | _ => None
  end.

(** The real number (or infinity, or NaN) that [a] stands for. *)
Definition value (a : spec_float) : float :=
  match a with
  | S754_zero _ => FReal 0
  | S754_infinity s => FInf s
  | S754_nan => FNaN
  | S754_finite s m e =>
      if 0 <=? e then FReal (IZR (cond_Zopp s (Zpos m * 2 ^ e)))
      else FReal (IZR (cond_Zopp s (Zpos m)) / IZR (2 ^ (- e)))
  end.

(** The ceiling of the exact quotient of two finite numbers, the
    divisor not zero: [ceil(a / b)] over the reals. *)
Definition exact_ceil_quotient (a b : spec_float) : option Z :=
  match a, b with
  | S754_zero _, S754_finite _ _ _ => Some 0
  | S754_finite sa ma ea, S754_finite sb mb eb =>
      let e := Z.min ea eb in
      let num := cond_Zopp sa (Zpos ma * 2 ^ (ea - e)) in
      let den := cond_Zopp sb (Zpos mb * 2 ^ (eb - e)) in
      Some (- ((- num) / den))
  | _, _ => None
  end.

(** ** Unsigned 32-bit integers *)

Definition UINT_MOD : Z := 2 ^ 32.

Definition wrap32 (z : Z) : Z := z mod UINT_MOD.

(** [unsigned int] to [float], as in [mag / num_pts]. *)
Definition of_unsigned (n : Z) : binary32 := f32 n.

(** ** Graph types (types.hpp, as used by the sources)

    An edge points to its two nodes; the code modelled here only reads
    through these pointers, so a node is stored by value. *)

Inductive MetaValue : Type :=
| MFloat (f : float)
| MInt (i : Z)
| MString (s : string).

Record Metadata : Type := { data : gmap string MetaValue }.

Record Coordinates : Type := { x : binary32; y : binary32 }.

Record Node : Type := {
  nodeid : Z;
  coords : Coordinates;
  node_metadata : Metadata
}.

Record DirectionalEdge : Type := {
  edgeid : Z;
  start : Node;
  end_ : Node;
  metadata : Metadata
}.

Record Route : Type := {
  start_node : Node;
  edges : list DirectionalEdge
}.

(** [curr_edge] is a nullable pointer in the source. *)
Record ReroutingState : Type := {
  curr_edge : option DirectionalEdge;
  closest_pt_on_edge : Coordinates
}.

(** Modelled from the spec: [geometry_msgs::msg::PoseStamped] and
    [utils::toMsg] are declared outside the sources at hand; a path point
    is the pair of [float] coordinates handed to [toMsg] (the message
    keeps them as [double]s, a conversion that changes no value). *)
Record PoseStamped : Type := { position_x : binary32; position_y : binary32 }.

Definition toMsg (px py : binary32) : PoseStamped :=
  {| position_x := px; position_y := py |}.

Record Path : Type := {
  frame_id : string;
  stamp : Z;
  poses : list PoseStamped
}.

(** ** PathConverter *)

Section PathConverter.

(** Converting a floating value whose integer part is outside
    [0, 2^32) to [unsigned int] is undefined in C++; [ub_conv] stands for
    whatever the platform yields there (x86-64 keeps the low 32 bits,
    AArch64 saturates). *)
Variable ub_conv : binary32 -> Z.

(** The C library's [hypotf] on two finite nonzero arguments. *)
Variable libm_hypotf : binary32 -> binary32 -> binary32.

(** [density_], set by [configure] from parameter [path_density]. *)
Variable density_ : binary32.

Definition to_unsigned (a : binary32) : Z :=
  match Ztrunc a with
  | Some t => if (0 <=? t) && (t <? UINT_MOD) then t else wrap32 (ub_conv a)
  | None => wrap32 (ub_conv a)
  end.

(** [hypotf], with the cases the C standard fixes written out (C17
    F.10.4.3): an infinite argument gives [+inf], also against a NaN;
    against a zero the result is the magnitude of the other argument. *)
Definition hypotf (a b : binary32) : binary32 :=
  match a, b with
  | S754_infinity _, _ | _, S754_infinity _ => S754_infinity false
  | S754_nan, _ | _, S754_nan => S754_nan
  | _, S754_zero _ => SFabs a
  | S754_zero _, _ => SFabs b
  | S754_finite _ _ _, S754_finite _ _ _ => libm_hypotf a b
  end.

(** The [while (pt_ctr < num_pts - 1)] loop of [interpolateEdge];
    [num_pts - 1] and [pt_ctr++] are unsigned operations. *)
Equations? march (ux uy iterpolated_dist : binary32) (num_pts pt_ctr : Z)
    (px py : binary32) (out : list PoseStamped) : list PoseStamped
    by wf (Z.to_nat (wrap32 (num_pts - 1) - pt_ctr)) lt :=
  march ux uy iterpolated_dist num_pts pt_ctr px py out
    with Z_lt_dec pt_ctr (wrap32 (num_pts - 1)) := {
    | left _ =>
        let px' := add32 px (mul32 ux iterpolated_dist) in
        let py' := add32 py (mul32 uy iterpolated_dist) in
        march ux uy iterpolated_dist num_pts (wrap32 (pt_ctr + 1))
          px' py' (out ++ [toMsg px' py'])
    | right _ => out }.
Proof.
  unfold wrap32, UINT_MOD in *.
  assert (0 <= (num_pts - 1) mod 2 ^ 32 < 2 ^ 32) by (apply Z.mod_pos_bound; lia).
  assert (0 <= (pt_ctr + 1) mod 2 ^ 32 < 2 ^ 32) by (apply Z.mod_pos_bound; lia).
  destruct (Z_lt_dec pt_ctr (-1)).
  - lia.
  - rewrite (Z.mod_small (pt_ctr + 1)) by lia. lia.
Qed.

Definition interpolateEdge (x0 y0 x1 y1 : binary32)
    (out : list PoseStamped) : list PoseStamped :=
  (* Find number of points to populate by given density *)
  let mag := hypotf (sub32 x1 x0) (sub32 y1 y0) in
  let num_pts := to_unsigned (ceil (div32 mag density_)) in
  let iterpolated_dist := div32 mag (of_unsigned num_pts) in
  (* Find unit vector direction *)
  let ux := div32 (sub32 x1 x0) mag in
  let uy := div32 (sub32 y1 y0) mag in
  (* March along it until dist *)
  let out := out ++ [toMsg x0 y0] in
  march ux uy iterpolated_dist num_pts 0 x0 y0 out.

(** [densify]; the published copy of the path is appended to the
    publisher's log [pub]. *)
Definition densify (route : Route) (rerouting_info : ReroutingState)
    (frame : string) (now : Z) (pub : list Path) : Path * list Path :=
  let out := [] in
  let out :=
    match curr_edge rerouting_info with
    | Some e =>
        let s := closest_pt_on_edge rerouting_info in
        let t := coords (end_ e) in
        interpolateEdge (x s) (y s) (x t) (y t) out
    | None => out
    end in
  let out :=
    fold_left
      (fun acc edge =>
         let s := coords (start edge) in
         let t := coords (end_ edge) in
         interpolateEdge (x s) (y s) (x t) (y t) acc)
      (edges route) out in
  let out :=
    match edges route with
    | [] => out ++ [toMsg (x (coords (start_node route))) (y (coords (start_node route)))]
    | e0 :: es =>
        let b := List.last es e0 in
        out ++ [toMsg (x (coords (end_ b))) (y (coords (end_ b)))]
    end in
  let path := {| frame_id := frame; stamp := now; poses := out |} in
  (path, pub ++ [path]).

End PathConverter.

(** ** Metadata access (as the tests use it) *)

Definition setValue (key : string) (v : MetaValue) (m : Metadata) : Metadata :=
  {| data := <[key := v]> (data m) |}.

Definition clear (m : Metadata) : Metadata := {| data := ∅ |}.

(** A numeric read: an integer value converts, a string is no number. *)
Definition getFloat (m : Metadata) (key : string) : option float :=
  match data m !! key with
  | Some (MFloat f) => Some f
  | Some (MInt i) => Some (FReal (IZR i))
  | _ => None
  end.

Definition getString (m : Metadata) (key : string) : option string :=
  match data m !! key with
  | Some (MString s) => Some s
  | _ => None
  end.

Definition hasKey (m : Metadata) (key : string) : bool :=
  bool_decide (is_Some (data m !! key)).

(** The Euclidean distance between the two nodes of an edge. *)
Definition edge_length (e : DirectionalEdge) : float :=
  euclidean (fsub (value (x (coords (end_ e)))) (value (x (coords (start e)))))
            (fsub (value (y (coords (end_ e)))) (value (y (coords (start e))))).

(** ** Scoring plugins

  The plugin sources (edge_scorer.cpp and plugins/) are not among the
  sources at hand; only their tests are.  Each plugin below is modelled
  from the specification. *)

(** Modelled from the spec: ScoreResult, "a boolean traversable flag plus
  an accumulated floating-point cost; cost is meaningless when
  traversable is false". *)
Inductive ScoreResult : Type :=
| NotTraversable
| Traversable (cost : float).

Definition traversable (r : ScoreResult) : bool :=
  match r with NotTraversable => false | Traversable _ => true end.

(** Modelled from the spec: the single capability interface
  [evaluate(edge) -> (bool, float)] every scoring plugin offers. *)
Class EdgeCostFunction (P : Type) : Type :=
  score : P -> DirectionalEdge -> ScoreResult.

Module DistanceScorer.
Record t : Type := Build { }.

(** Modelled from the spec: [DistanceScorer::score] (section 4.2), the
    Euclidean distance, divided by [speed_limit] when the edge carries
    one. *)
Definition score (_ : t) (e : DirectionalEdge) : ScoreResult :=
  match getFloat (metadata e) "speed_limit" with
  | Some v => Traversable (fdiv (edge_length e) v)
  | None => Traversable (edge_length e)
  end.
End DistanceScorer.

Module PenaltyScorer.
Record t : Type := Build { }.

(** Modelled from the spec: [PenaltyScorer::score] (section 4.3), the
    edge's [penalty], else 0. *)
Definition score (_ : t) (e : DirectionalEdge) : ScoreResult :=
  match getFloat (metadata e) "penalty" with
  | Some p => Traversable p
  | None => Traversable (FReal 0)
  end.
End PenaltyScorer.

Module TimeScorer.
(** [max_vel]: the configured default maximum speed (0.5 in the test). *)
Record t : Type := Build { max_vel : float }.

(** Modelled from the spec: [TimeScorer::score] (section 4.4), measured
    time first, else distance over the speed limit, else distance over
    the default maximum speed. *)
Definition score (p : t) (e : DirectionalEdge) : ScoreResult :=
  match getFloat (metadata e) "abs_time_taken" with
  | Some time => Traversable time
  | None =>
      let speed :=
        match getFloat (metadata e) "abs_speed_limit" with
        | Some v => v
        | None => max_vel p
        end in
      Traversable (fdiv (edge_length e) speed)
  end.
End TimeScorer.

Module SemanticScorer.
(** [semantic_classes]: the class names with one weight each;
    [semantic_key]: "class" by default, empty for key mode. *)
Record t : Type := Build {
  semantic_classes : list (string * float);
  semantic_key : string
  }.

Definition class_table (p : t) : gmap string float :=
  list_to_map (semantic_classes p).

(** Value mode: the class named by the value under [semantic_key]. *)
Definition metadataValueScorer (p : t) (m : Metadata) (acc : float) : float :=
  match getString m (semantic_key p) with
  | Some cls =>
      match class_table p !! cls with
      | Some w => fadd acc w
      | None => acc
      end
  | None => acc
  end.

(** Key mode: every class name present as a metadata key. *)
Definition metadataKeyScorer (p : t) (m : Metadata) (acc : float) : float :=
  fold_left
    (fun a cw => if hasKey m (fst cw) then fadd a (snd cw) else a)
    (semantic_classes p) acc.

Definition contribution (p : t) (m : Metadata) (acc : float) : float :=
  if decide (semantic_key p = EmptyString) then metadataKeyScorer p m acc
  else metadataValueScorer p m acc.

(** Modelled from the spec: [SemanticScorer::score] (section 4.5), edge
    and end node contribute independently; always traversable. *)
Definition score (p : t) (e : DirectionalEdge) : ScoreResult :=
  let acc := FReal 0 in
  let acc := contribution p (metadata e) acc in
  let acc := contribution p (node_metadata (end_ e)) acc in
  Traversable acc.
End SemanticScorer.

Module CostmapScorer.
(** The value of a lethal cell, which is also the normalising maximum
    (the tests expect [100 / 254] and, for a lethal segment, [1]). *)
Definition LETHAL : Z := 254.

Section Raster.
(** The raster type and its line walk are an implementation choice
    in the spec; a sample is the cost of a visited cell, or [None]
    when the sampled position lies outside the raster. *)
Variable Raster : Type.
Variable line_samples :
    Raster -> Coordinates -> Coordinates -> list (option Z).

Record t : Type := Build {
    costmap : option Raster;
    use_maximum : bool;
    invalid_on_collision : bool;
    invalid_off_map : bool
  }.

Definition off_map (samples : list (option Z)) : bool :=
    existsb (fun s => match s with None => true | Some _ => false end) samples.

Definition in_map (samples : list (option Z)) : list Z :=
    omap (fun s => s) samples.

Definition collides (costs : list Z) : bool :=
    existsb (fun c => c =? LETHAL) costs.

Definition maximum (costs : list Z) : float :=
    FReal (IZR (fold_right Z.max 0 costs)).

Definition average (costs : list Z) : float :=
    match costs with
    | [] => FReal 0
    | _ => fdiv (FReal (IZR (fold_right Z.add 0 costs)))
                (FReal (IZR (Z.of_nat (length costs))))
    end.

(** Modelled from the spec: [CostmapScorer::score] (section 4.6).
    Without a raster the scorer answers as for a segment that is off
    the map. *)
Definition score (p : t) (e : DirectionalEdge) : ScoreResult :=
    match costmap p with
    | None =>
        if invalid_off_map p then NotTraversable else Traversable (FReal 0)
    | Some raster =>
        let samples :=
          line_samples raster (coords (start e)) (coords (end_ e)) in
        if off_map samples && invalid_off_map p then NotTraversable
        else
          let costs := in_map samples in
          if collides costs && invalid_on_collision p then NotTraversable
          else
            let raw := if use_maximum p then maximum costs else average costs in
            Traversable (fdiv raw (FReal (IZR LETHAL)))
    end.

(** The default policy: maximum aggregation, both edge cases fatal. *)
Definition default_policy (c : option Raster) : t :=
    {| costmap := c; use_maximum := true;
       invalid_on_collision := true; invalid_off_map := true |}.
End Raster.
End CostmapScorer.

Module AdjustEdgesScorer.
(** Modelled from the spec: the ClosedEdgeSet and the OverrideCostMap
    of section 3, both empty at construction. *)
Record t : Type := Build {
  ClosedEdgeSet : gset Z;
  OverrideCostMap : gmap Z float
  }.

Definition init : t := {| ClosedEdgeSet := ∅; OverrideCostMap := ∅ |}.

(** Modelled from the spec: the administrative operations of section
    4.7 (closing does not touch the overrides). *)
Definition close_edges (ids : list Z) (s : t) : t :=
  {| ClosedEdgeSet := ClosedEdgeSet s ∪ list_to_set ids;
     OverrideCostMap := OverrideCostMap s |}.

Definition reopen_edges (ids : list Z) (s : t) : t :=
  {| ClosedEdgeSet := ClosedEdgeSet s ∖ list_to_set ids;
     OverrideCostMap := OverrideCostMap s |}.

Definition override_costs (adj : list (Z * float)) (s : t) : t :=
  {| ClosedEdgeSet := ClosedEdgeSet s;
     OverrideCostMap :=
       fold_left (fun m a => <[fst a := snd a]> m) adj (OverrideCostMap s) |}.

(** The request of the test: [closed_edges], [opened_edges] and
    [adjust_edges] in one message, answered with [success]. *)
Record Request : Type := {
  closed_edges : list Z;
  opened_edges : list Z;
  adjust_edges : list (Z * float)
  }.

Definition adjust_edges_service (req : Request) (s : t) : t * bool :=
  (override_costs (adjust_edges req)
     (reopen_edges (opened_edges req) (close_edges (closed_edges req) s)),
   true).

(** Modelled from the spec: [AdjustEdgesScorer::score] (section 4.7),
    closed edges are not traversable, an override is the cost, anything
    else costs 0. *)
Definition score (s : t) (e : DirectionalEdge) : ScoreResult :=
  if decide (edgeid e ∈ ClosedEdgeSet s) then NotTraversable
  else
    match OverrideCostMap s !! edgeid e with
    | Some c => Traversable c
    | None => Traversable (FReal 0)
    end.
End AdjustEdgesScorer.

#[export] Instance DistanceScorer_fn : EdgeCostFunction DistanceScorer.t :=
  DistanceScorer.score.
#[export] Instance PenaltyScorer_fn : EdgeCostFunction PenaltyScorer.t :=
  PenaltyScorer.score.
#[export] Instance TimeScorer_fn : EdgeCostFunction TimeScorer.t :=
  TimeScorer.score.
#[export] Instance SemanticScorer_fn : EdgeCostFunction SemanticScorer.t :=
  SemanticScorer.score.
#[export] Instance AdjustEdgesScorer_fn : EdgeCostFunction AdjustEdgesScorer.t :=
  AdjustEdgesScorer.score.
#[export] Instance CostmapScorer_fn {Raster} (line_samples : Raster -> Coordinates -> Coordinates -> list (option Z)) :
  EdgeCostFunction (CostmapScorer.t Raster) :=
  CostmapScorer.score Raster line_samples.

(** ** Composite scoring engine *)

Record ScoringPlugin : Type := { evaluate : DirectionalEdge -> ScoreResult }.

Definition plugin_of {P : Type} `{EdgeCostFunction P} (p : P) : ScoringPlugin :=
  {| evaluate := score p |}.

(** Modelled from the spec: the error of section 7, raised when a named
    plugin cannot be resolved or instantiated. *)
Inductive ConfigurationError : Type :=
| UnresolvedPlugin (name : string).

Definition result (A : Type) : Type := ConfigurationError + A.

Definition raise {A : Type} (e : ConfigurationError) : result A := inl e.

#[export] Instance result_ret : MRet result := fun A a => inr a.

#[export] Instance result_bind : MBind result := fun A B k m =>
  match m with
  | inl e => inl e
  | inr a => k a
  end.

(** One entry of the ordered configuration: the plugin's name and its
    weight (1.0 unless configured). *)
Record PluginConfig : Type := {
  plugin_name : string;
  plugin_weight : float
}.

Record ActivePlugin : Type := {
  name : string;
  weight : float;
  plugin : ScoringPlugin
}.

Record EdgeScorer : Type := { plugins : list ActivePlugin }.

Definition resolve (registry : gmap string ScoringPlugin) (c : PluginConfig)
    : result ActivePlugin :=
  match registry !! plugin_name c with
  | Some p => mret {| name := plugin_name c; weight := plugin_weight c; plugin := p |}
  | None => raise (UnresolvedPlugin (plugin_name c))
  end.

Fixpoint load_plugins (registry : gmap string ScoringPlugin)
    (cfg : list PluginConfig) : result (list ActivePlugin) :=
  match cfg with
  | [] => mret []
  | c :: rest =>
      p ← resolve registry c;
      ps ← load_plugins registry rest;
      mret (p :: ps)
  end.

(** Modelled from the spec: the [EdgeScorer] constructor (section 4.1),
    from the ordered plugin list; it fails on the first name that does
    not resolve. *)
Definition EdgeScorer_new (registry : gmap string ScoringPlugin)
    (cfg : list PluginConfig) : result EdgeScorer :=
  ps ← load_plugins registry cfg;
  mret {| plugins := ps |}.

Definition numPlugins (s : EdgeScorer) : nat := length (plugins s).

Fixpoint score_plugins (ps : list ActivePlugin) (e : DirectionalEdge)
    (total : float) : ScoreResult :=
  match ps with
  | [] => Traversable total
  | p :: rest =>
      match evaluate (plugin p) e with
      | NotTraversable => NotTraversable
      | Traversable c => score_plugins rest e (fadd total (fmul (weight p) c))
      end
  end.

(** Modelled from the spec: [EdgeScorer::score] (section 4.1), the
    weighted sum over all plugins, or not traversable as soon as one
    plugin says so. *)
Definition EdgeScorer_score (s : EdgeScorer) (e : DirectionalEdge) : ScoreResult :=
  score_plugins (plugins s) e (FReal 0).

(** ** Quantities of the densifier *)

(** [mag] of [interpolateEdge]: the length of the segment. *)
Definition mag_of (libm_hypotf : binary32 -> binary32 -> binary32)
    (x0 y0 x1 y1 : binary32) : binary32 :=
  hypotf libm_hypotf (sub32 x1 x0) (sub32 y1 y0).

(** The counter value [num_pts] that [interpolateEdge] computes. *)
Definition num_pts_of (ub_conv : binary32 -> Z)
    (libm_hypotf : binary32 -> binary32 -> binary32)
    (density_ x0 y0 x1 y1 : binary32) : Z :=
  to_unsigned ub_conv (ceil (div32 (mag_of libm_hypotf x0 y0 x1 y1) density_)).

(** The point count [n = ceil(mag / density_)] as the integer it is,
    the quotient being the [float] one; none when it is infinite or
    NaN. *)
Definition pointCount (libm_hypotf : binary32 -> binary32 -> binary32)
    (density_ x0 y0 x1 y1 : binary32) : option Z :=
  to_integer (ceil (div32 (mag_of libm_hypotf x0 y0 x1 y1) density_)).

(** The step length [mag / n]. *)
Definition stepLength (libm_hypotf : binary32 -> binary32 -> binary32)
    (x0 y0 x1 y1 : binary32) (n : Z) : binary32 :=
  div32 (mag_of libm_hypotf x0 y0 x1 y1) (of_unsigned n).

(** The pose one round of the loop reaches from pose [p]. *)
Definition step_pose (ux uy iterpolated_dist : binary32) (p : PoseStamped)
    : PoseStamped :=
  toMsg (add32 (position_x p) (mul32 ux iterpolated_dist))
        (add32 (position_y p) (mul32 uy iterpolated_dist)).

(** One step of the walk from pose [p]: the unit direction vector
    times the step length is added to it, in [float] arithmetic. *)
Definition advance (libm_hypotf : binary32 -> binary32 -> binary32)
    (x0 y0 x1 y1 : binary32) (n : Z) (p : PoseStamped) : PoseStamped :=
  let mag := mag_of libm_hypotf x0 y0 x1 y1 in
  step_pose (div32 (sub32 x1 x0) mag) (div32 (sub32 y1 y0) mag)
            (stepLength libm_hypotf x0 y0 x1 y1 n) p.

(** The [k]-th point of the walk from the start. *)
Definition walkPoint (libm_hypotf : binary32 -> binary32 -> binary32)
    (x0 y0 x1 y1 : binary32) (n : Z) (k : nat) : PoseStamped :=
  Nat.iter k (advance libm_hypotf x0 y0 x1 y1 n) (toMsg x0 y0).

(** The poses the loop body appends in [n] rounds from [(px, py)]. *)
Fixpoint trail (ux uy iterpolated_dist : binary32) (n : nat) (px py : binary32)
    : list PoseStamped :=
  match n with
  | O => []
  | S k =>
      let px' := add32 px (mul32 ux iterpolated_dist) in
      let py' := add32 py (mul32 uy iterpolated_dist) in
      toMsg px' py' :: trail ux uy iterpolated_dist k px' py'
  end.

(** Some [float]s by name: 0.05f (the default [path_density]), 0.15f,
    0.0625f and the least positive one, [2^-149]. *)
Definition f32_0_05 : binary32 := S754_finite false 13421773 (-28).
Definition f32_0_15 : binary32 := S754_finite false 10066330 (-26).
Definition f32_0_0625 : binary32 := S754_finite false 8388608 (-27).
Definition f32_least : binary32 := S754_finite false 1 (-149).

(** A C library to run the examples with; they are along an axis, where
    [hypotf] does not consult it. *)
Definition no_libm (a b : binary32) : binary32 := S754_nan.

(** ** Edges and stores used to state the scorer properties *)

Definition with_metadata (m : Metadata) (e : DirectionalEdge) : DirectionalEdge :=
  {| edgeid := edgeid e; start := start e; end_ := end_ e; metadata := m |}.

Definition with_edgeid (i : Z) (e : DirectionalEdge) : DirectionalEdge :=
  {| edgeid := i; start := start e; end_ := end_ e; metadata := metadata e |}.

(** The weight a metadata store contributes in value mode. *)
Definition classWeight (p : SemanticScorer.t) (m : Metadata) : float :=
  match getString m (SemanticScorer.semantic_key p) with
  | Some cls => default (FReal 0) (SemanticScorer.class_table p !! cls)
  | None => FReal 0
  end.

Ltac class_lookup :=
  unfold classWeight, getString, setValue, SemanticScorer.class_table;
  cbn [SemanticScorer.semantic_key SemanticScorer.semantic_classes data];
  rewrite ?list_to_map_cons, ?list_to_map_nil; cbn [fst snd];
  repeat first
    [ rewrite lookup_insert_eq
    | rewrite lookup_insert_ne by discriminate
    | rewrite lookup_empty ];
  cbn [from_option Datatypes.id fadd].

(** ** Segments and routes *)

Definition finite_coords (c : Coordinates) : bool :=
  is_finite (x c) && is_finite (y c).

(** The point count of the span from [a] to [b]. *)
Definition spanCount (libm_hypotf : binary32 -> binary32 -> binary32)
    (density_ : binary32) (a b : Coordinates) : option Z :=
  pointCount libm_hypotf density_ (x a) (y a) (x b) (y b).

(** A span from [a] to [b] whose point count is an integer that the
    unsigned counter holds and that is not zero. *)
Definition regular_span (libm_hypotf : binary32 -> binary32 -> binary32)
    (density_ : binary32) (a b : Coordinates) : bool :=
  match spanCount libm_hypotf density_ a b with
  | Some n => (1 <=? n) && (n <? UINT_MOD)
  | None => false
  end.

Definition regular_edge (libm_hypotf : binary32 -> binary32 -> binary32)
    (density_ : binary32) (e : DirectionalEdge) : bool :=
  regular_span libm_hypotf density_ (coords (start e)) (coords (end_ e)).

Definition toPose (c : Coordinates) : PoseStamped := toMsg (x c) (y c).

(** The end of the last edge of [es], or [fallback] without edges. *)
Definition final_coords (es : list DirectionalEdge) (fallback : Coordinates)
    : Coordinates :=
  match last es with
  | Some b => coords (end_ b)
  | None => fallback
  end.

(** The poses [densify] takes from one route edge. *)
Definition edge_poses (ub_conv : binary32 -> Z)
    (libm_hypotf : binary32 -> binary32 -> binary32) (density_ : binary32)
    (e : DirectionalEdge) : list PoseStamped :=
  interpolateEdge ub_conv libm_hypotf density_
    (x (coords (start e))) (y (coords (start e)))
    (x (coords (end_ e))) (y (coords (end_ e))) [].

(** The rerouting state's partial edge, as the span [densify] samples
    first: from the closest point to the edge's end node. *)
Definition partial_span (ri : ReroutingState) : option (Coordinates * Coordinates) :=
  match curr_edge ri with
  | Some e => Some (closest_pt_on_edge ri, coords (end_ e))
  | None => None
  end.

(** The point counts of the spans of a route, summed. *)
Definition routeCount (libm_hypotf : binary32 -> binary32 -> binary32)
    (density_ : binary32) (es : list DirectionalEdge) : Z :=
  fold_right Z.add 0
    (map (fun e =>
            default 0 (spanCount libm_hypotf density_
                         (coords (start e)) (coords (end_ e)))) es).

(** ** RouteServer (route_server.cpp)

    The objects the server holds through pointers (tf buffer, action
    server, publisher) live outside this file; a handle records the
    flags the server sets and the calls it makes, and what the outside
    computes is taken from an [Environment]. *)

Inductive CallbackReturn : Type := SUCCESS | FAILURE | ERROR.

Inductive Severity : Type := DEBUG | INFO | WARN.

Inductive LogArg : Type :=
| LString (s : string)
| LDouble (f : double).

Record LogRecord : Type := {
  severity : Severity;
  format : string;
  args : list LogArg
}.

(** How a call ends other than by returning. *)
Inductive Abort : Type :=
| NullDereference
| ParameterTypeException.

Definition outcome (A : Type) : Type := Abort + A.

#[export] Instance outcome_ret : MRet outcome := fun A a => inr a.

#[export] Instance outcome_bind : MBind outcome := fun A B k m =>
  match m with
  | inl e => inl e
  | inr a => k a
  end.

(** Dereferencing a smart pointer. *)
Definition deref {A : Type} (p : option A) : outcome A :=
  match p with
  | Some a => inr a
  | None => inl NullDereference
  end.

(** *** rclcpp parameters *)

Inductive ParameterType : Type :=
| PARAMETER_NOT_SET
| PARAMETER_BOOL
| PARAMETER_INTEGER
| PARAMETER_DOUBLE
| PARAMETER_STRING
| PARAMETER_BYTE_ARRAY
| PARAMETER_BOOL_ARRAY
| PARAMETER_INTEGER_ARRAY
| PARAMETER_DOUBLE_ARRAY
| PARAMETER_STRING_ARRAY.

#[export] Instance ParameterType_eq_dec : EqDecision ParameterType.
Proof. solve_decision. Defined.

Inductive ParameterValue : Type :=
| PNotSet
| PBool (b : bool)
| PInteger (i : Z)
| PDouble (f : double)
| PString (s : string)
| PByteArray (l : list Z)
| PBoolArray (l : list bool)
| PIntegerArray (l : list Z)
| PDoubleArray (l : list double)
| PStringArray (l : list string).

Definition value_type (v : ParameterValue) : ParameterType :=
  match v with
  | PNotSet => PARAMETER_NOT_SET
  | PBool _ => PARAMETER_BOOL
  | PInteger _ => PARAMETER_INTEGER
  | PDouble _ => PARAMETER_DOUBLE
  | PString _ => PARAMETER_STRING
  | PByteArray _ => PARAMETER_BYTE_ARRAY
  | PBoolArray _ => PARAMETER_BOOL_ARRAY
  | PIntegerArray _ => PARAMETER_INTEGER_ARRAY
  | PDoubleArray _ => PARAMETER_DOUBLE_ARRAY
  | PStringArray _ => PARAMETER_STRING_ARRAY
  end.

(** [as_double] and [as_string] throw on a value of another type. *)
Definition value_as_double (v : ParameterValue) : outcome double :=
  match v with
  | PDouble f => inr f
  | _ => inl ParameterTypeException
  end.

Definition value_as_string (v : ParameterValue) : outcome string :=
  match v with
  | PString s => inr s
  | _ => inl ParameterTypeException
  end.

(** [rclcpp::Parameter]: a name and a typed value. *)
Record NodeParameter : Type := {
  get_name : string;
  get_parameter_value : ParameterValue
}.

Definition get_type (p : NodeParameter) : ParameterType :=
  value_type (get_parameter_value p).

Definition as_double (p : NodeParameter) : outcome double :=
  value_as_double (get_parameter_value p).

Record SetParametersResult : Type := {
  successful : bool;
  reason : string
}.

(** *** Handles *)

Inductive ServerCall : Type :=
| terminate_all
| accept_pending_goal
| succeeded_current (planning_time : Z).

(** The action server as the route server sees it: the flag
    [activate]/[deactivate] set, what the two request queries answer,
    and the calls that end or switch a goal. *)
Record ActionServer : Type := {
  is_server_active : bool;
  is_cancel_requested : bool;
  is_preempt_requested : bool;
  server_calls : list ServerCall
}.

Definition set_server_active (b : bool) (a : ActionServer) : ActionServer :=
  {| is_server_active := b;
     is_cancel_requested := is_cancel_requested a;
     is_preempt_requested := is_preempt_requested a;
     server_calls := server_calls a |}.

Definition server_call (c : ServerCall) (a : ActionServer) : ActionServer :=
  {| is_server_active := is_server_active a;
     is_cancel_requested := is_cancel_requested a;
     is_preempt_requested := is_preempt_requested a;
     server_calls := server_calls a ++ [c] |}.

Definition Graph : Type := list Node.

(** The marker message [utils::toMsg(graph_, route_frame_, now)]. *)
Record GraphMarkers : Type := {
  markers_graph : Graph;
  markers_frame : string;
  markers_stamp : Z
}.

Record GraphPublisher : Type := {
  publisher_active : bool;
  published : list GraphMarkers
}.

(** A stamped pose with its header, as the action goal carries it. *)
Record StampedPose : Type := {
  header_frame_id : string;
  stamped_pose : PoseStamped
}.

Record ActionBasicGoal : Type := {
  use_poses : bool;
  use_start : bool;
  start_id : Z;
  goal_id : Z;
  goal_start : StampedPose;
  goal_goal : StampedPose
}.

(** What the server asks of code outside this file. *)
Class Environment : Type := {
  TfBuffer : Type;
  (** the buffer [on_configure] creates *)
  new_tf_buffer : TfBuffer;
  new_graph_publisher : GraphPublisher;
  new_action_server : ActionServer;
  (** the value a parameter has once it is declared with this default *)
  declared_parameter : string -> ParameterValue -> ParameterValue;
  (** [loadGraphFromFile]: its verdict and the graph it leaves *)
  loadGraphFromFile : TfBuffer -> string -> Graph -> bool * Graph;
  (** the pose [getCurrentPose] leaves in its first argument *)
  getCurrentPose : StampedPose -> TfBuffer -> string -> string -> StampedPose;
  (** the pose [transformPoseInTargetFrame] leaves in its second argument *)
  transformPoseInTargetFrame : StampedPose -> TfBuffer -> string -> StampedPose;
  (** [rclcpp::Duration::seconds] of a duration in nanoseconds *)
  seconds : Z -> double
}.

(** [a] converted to [bool]: anything but a zero, NaN included. *)
Definition is_nonzero (a : double) : bool :=
  match a with
  | S754_zero _ => false
  | _ => true
  end.

(** [a > b]; false whenever a NaN is involved. *)
Definition fgt (a b : double) : bool := SFltb b a.

(** The value a parameter of the callback assigns to
    [max_planning_time_], if any. *)
Definition planning_time_update (p : NodeParameter) : option double :=
  match get_parameter_value p with
  | PDouble f =>
      if decide (get_name p = "max_planning_time") then Some f else None
  | _ => None
  end.

Definition ends_goal (c : ServerCall) : bool :=
  match c with
  | terminate_all | succeeded_current _ => true
  | accept_pending_goal => false
  end.

Definition is_warn (r : LogRecord) : bool :=
  match severity r with
  | WARN => true
  | _ => false
  end.

Definition is_success (c : ServerCall) : bool :=
  match c with
  | succeeded_current _ => true
  | _ => false
  end.

Section RouteServer.
Context `{Environment}.

(** The members of [RouteServer]; [dyn_params_handler_] and [bonded]
    say whether the parameter callback is registered and the bond
    created, [logger] holds what was logged so far.  The state a call
    leaves behind when it aborts is not tracked. *)
Record RouteServer : Type := {
  tf_ : option TfBuffer;
  transform_listener_ : option TfBuffer;
  graph_vis_publisher_ : option GraphPublisher;
  action_server_ : option ActionServer;
  graph_loader_ : option string;
  graph_ : Graph;
  route_frame_ : string;
  base_frame_ : string;
  max_planning_time_ : double;
  dyn_params_handler_ : bool;
  bonded : bool;
  logger : list LogRecord
}.

Definition log (sev : Severity) (fmt : string) (a : list LogArg)
    (s : RouteServer) : RouteServer :=
  {| tf_ := tf_ s; transform_listener_ := transform_listener_ s;
     graph_vis_publisher_ := graph_vis_publisher_ s;
     action_server_ := action_server_ s; graph_loader_ := graph_loader_ s;
     graph_ := graph_ s; route_frame_ := route_frame_ s;
     base_frame_ := base_frame_ s; max_planning_time_ := max_planning_time_ s;
     dyn_params_handler_ := dyn_params_handler_ s; bonded := bonded s;
     logger := logger s ++ [{| severity := sev; format := fmt; args := a |}] |}.

Definition set_action_server (a : option ActionServer) (s : RouteServer)
    : RouteServer :=
  {| tf_ := tf_ s; transform_listener_ := transform_listener_ s;
     graph_vis_publisher_ := graph_vis_publisher_ s;
     action_server_ := a; graph_loader_ := graph_loader_ s;
     graph_ := graph_ s; route_frame_ := route_frame_ s;
     base_frame_ := base_frame_ s; max_planning_time_ := max_planning_time_ s;
     dyn_params_handler_ := dyn_params_handler_ s; bonded := bonded s;
     logger := logger s |}.

Definition set_graph_vis_publisher (p : option GraphPublisher) (s : RouteServer)
    : RouteServer :=
  {| tf_ := tf_ s; transform_listener_ := transform_listener_ s;
     graph_vis_publisher_ := p;
     action_server_ := action_server_ s; graph_loader_ := graph_loader_ s;
     graph_ := graph_ s; route_frame_ := route_frame_ s;
     base_frame_ := base_frame_ s; max_planning_time_ := max_planning_time_ s;
     dyn_params_handler_ := dyn_params_handler_ s; bonded := bonded s;
     logger := logger s |}.

Definition set_active_links (handler bond : bool) (s : RouteServer) : RouteServer :=
  {| tf_ := tf_ s; transform_listener_ := transform_listener_ s;
     graph_vis_publisher_ := graph_vis_publisher_ s;
     action_server_ := action_server_ s; graph_loader_ := graph_loader_ s;
     graph_ := graph_ s; route_frame_ := route_frame_ s;
     base_frame_ := base_frame_ s; max_planning_time_ := max_planning_time_ s;
     dyn_params_handler_ := handler; bonded := bond;
     logger := logger s |}.

Definition set_max_planning_time (v : double) (s : RouteServer) : RouteServer :=
  {| tf_ := tf_ s; transform_listener_ := transform_listener_ s;
     graph_vis_publisher_ := graph_vis_publisher_ s;
     action_server_ := action_server_ s; graph_loader_ := graph_loader_ s;
     graph_ := graph_ s; route_frame_ := route_frame_ s;
     base_frame_ := base_frame_ s; max_planning_time_ := v;
     dyn_params_handler_ := dyn_params_handler_ s; bonded := bonded s;
     logger := logger s |}.

(** [on_configure]: the handles are created first, the three
    parameters read next, the graph loaded last. *)
Definition on_configure (s : RouteServer) : outcome (RouteServer * CallbackReturn) :=
  let s := log INFO "Configuring" [] s in
  let tf := new_tf_buffer in
  route_frame ← value_as_string (declared_parameter "route_frame" (PString "map"));
  base_frame ← value_as_string (declared_parameter "base_frame" (PString "base_link"));
  max_planning_time ←
    value_as_double (declared_parameter "max_planning_time" (PDouble (f64 2)));
  (* Load graph and convert poses to the route frame, if required *)
  let loaded := loadGraphFromFile tf route_frame (graph_ s) in
  let s :=
    {| tf_ := Some tf; transform_listener_ := Some tf;
       graph_vis_publisher_ := Some new_graph_publisher;
       action_server_ := Some new_action_server;
       graph_loader_ := Some route_frame;
       graph_ := loaded.2; route_frame_ := route_frame;
       base_frame_ := base_frame; max_planning_time_ := max_planning_time;
       dyn_params_handler_ := dyn_params_handler_ s; bonded := bonded s;
       logger := logger s |} in
  if negb loaded.1 then mret (s, FAILURE) else mret (s, SUCCESS).

Definition on_activate (now : Z) (s : RouteServer)
    : outcome (RouteServer * CallbackReturn) :=
  let s := log INFO "Activating" [] s in
  server ← deref (action_server_ s);
  let s := set_action_server (Some (set_server_active true server)) s in
  publisher ← deref (graph_vis_publisher_ s);
  let message :=
    {| markers_graph := graph_ s; markers_frame := route_frame_ s;
       markers_stamp := now |} in
  let s :=
    set_graph_vis_publisher
      (Some {| publisher_active := true;
               published := published publisher ++ [message] |}) s in
  (* Add callback for dynamic parameters; create bond connection *)
  let s := set_active_links true true s in
  mret (s, SUCCESS).

Definition on_deactivate (s : RouteServer) : outcome (RouteServer * CallbackReturn) :=
  let s := log INFO "Deactivating" [] s in
  server ← deref (action_server_ s);
  let s := set_action_server (Some (set_server_active false server)) s in
  publisher ← deref (graph_vis_publisher_ s);
  let s :=
    set_graph_vis_publisher
      (Some {| publisher_active := false; published := published publisher |}) s in
  (* reset the parameter callback; destroy bond connection *)
  let s := set_active_links false false s in
  mret (s, SUCCESS).

Definition on_cleanup (s : RouteServer) : RouteServer * CallbackReturn :=
  let s := log INFO "Cleaning up" [] s in
  ({| tf_ := None; transform_listener_ := None;
      graph_vis_publisher_ := None; action_server_ := None;
      graph_loader_ := graph_loader_ s;
      graph_ := []; route_frame_ := route_frame_ s;
      base_frame_ := base_frame_ s; max_planning_time_ := max_planning_time_ s;
      dyn_params_handler_ := dyn_params_handler_ s; bonded := bonded s;
      logger := logger s |}, SUCCESS).

Definition on_shutdown (s : RouteServer) : RouteServer * CallbackReturn :=
  (log INFO "Shutting down" [] s, SUCCESS).

(** A default-constructed [PoseStamped]. *)
Definition empty_pose : StampedPose :=
  {| header_frame_id := EmptyString; stamped_pose := toMsg (S754_zero false) (S754_zero false) |}.

(** The frame check and conversion done for the start and for the goal
    pose; [named] is the frame the notice prints. *)
Definition to_route_frame (what : string) (named : string) (pose : StampedPose)
    (s : RouteServer) : outcome (StampedPose * RouteServer) :=
  if decide (header_frame_id pose <> route_frame_ s) then
    let s := log INFO what [LString named; LString (route_frame_ s)] s in
    tf ← deref (tf_ s);
    mret (transformPoseInTargetFrame pose tf (route_frame_ s), s)
  else mret (pose, s).

Definition findStartandGoalNodeIDs (goal : ActionBasicGoal) (s : RouteServer)
    : outcome ((Z * Z) * RouteServer) :=
  (* If not using the poses, then use the requests Node IDs *)
  if negb (use_poses goal) then mret ((start_id goal, goal_id goal), s)
  else
    (* Find request start pose *)
    let goal_pose := goal_goal goal in
    start_pose ←
      (if use_start goal then mret (goal_start goal)
       else
         tf ← deref (tf_ s);
         mret (getCurrentPose empty_pose tf (route_frame_ s) (base_frame_ s)));
    (* If start or goal not provided in route_frame, transform *)
    started ←
      to_route_frame
        "Request start pose not in %s frame. Converting %s to route server frame."
        (header_frame_id start_pose) start_pose s;
    converted ←
      to_route_frame
        "Request goal pose not in %s frame. Converting %s to route server frame."
        (header_frame_id started.1) goal_pose started.2;
    (* Find closest route nodes to start and goal to plan between *)
    mret ((0, 5), converted.2).

(** The state [on_activate] leaves, given the action server and the
    publisher it found. *)
Definition activated (now : Z) (server : ActionServer)
    (publisher : GraphPublisher) (s : RouteServer) : RouteServer :=
  {| tf_ := tf_ s; transform_listener_ := transform_listener_ s;
     graph_vis_publisher_ :=
       Some {| publisher_active := true;
               published :=
                 published publisher
                 ++ [{| markers_graph := graph_ s;
                        markers_frame := route_frame_ s;
                        markers_stamp := now |}] |};
     action_server_ := Some (set_server_active true server);
     graph_loader_ := graph_loader_ s; graph_ := graph_ s;
     route_frame_ := route_frame_ s; base_frame_ := base_frame_ s;
     max_planning_time_ := max_planning_time_ s;
     dyn_params_handler_ := true; bonded := true;
     logger :=
       logger s ++ [{| severity := INFO; format := "Activating"; args := [] |}] |}.

(** The state [on_deactivate] leaves. *)
Definition deactivated (server : ActionServer) (publisher : GraphPublisher)
    (s : RouteServer) : RouteServer :=
  {| tf_ := tf_ s; transform_listener_ := transform_listener_ s;
     graph_vis_publisher_ :=
       Some {| publisher_active := false; published := published publisher |};
     action_server_ := Some (set_server_active false server);
     graph_loader_ := graph_loader_ s; graph_ := graph_ s;
     route_frame_ := route_frame_ s; base_frame_ := base_frame_ s;
     max_planning_time_ := max_planning_time_ s;
     dyn_params_handler_ := false; bonded := false;
     logger :=
       logger s ++ [{| severity := INFO; format := "Deactivating"; args := [] |}] |}.

Definition computeRoute (start_time end_time : Z) (s : RouteServer)
    : outcome RouteServer :=
  (* the current goal is fetched through the pointer before any check *)
  server ← deref (action_server_ s);
  (* Make sure request is valid *)
  if negb (is_server_active server) then
    let s := log DEBUG "Action server unavailable or inactive. Stopping." [] s in
    mret (set_action_server (Some (server_call terminate_all server)) s)
  else if is_cancel_requested server then
    let s :=
      log INFO "Goal was canceled. Canceling route planning action." [] s in
    mret (set_action_server (Some (server_call terminate_all server)) s)
  else
    let server :=
      if is_preempt_requested server
      then server_call accept_pending_goal server else server in
    let cycle_duration := end_time - start_time in
    let s :=
      if is_nonzero (max_planning_time_ s)
         && fgt (seconds cycle_duration) (max_planning_time_ s)
      then
        log WARN
          "Route planner missed its desired rate of %.4f Hz. Current loop rate is %.4f Hz"
          [LDouble (div64 (f64 1) (max_planning_time_ s));
           LDouble (div64 (f64 1) (seconds cycle_duration))] s
      else s in
    mret (set_action_server
            (Some (server_call (succeeded_current cycle_duration) server)) s).

Definition update_parameter (parameter : NodeParameter) (s : RouteServer)
    : outcome RouteServer :=
  if decide (get_type parameter = PARAMETER_DOUBLE) then
    if decide (get_name parameter = "max_planning_time") then
      v ← as_double parameter;
      mret (set_max_planning_time v s)
    else mret s
  else mret s.

Fixpoint update_parameters (parameters : list NodeParameter) (s : RouteServer)
    : outcome RouteServer :=
  match parameters with
  | [] => mret s
  | parameter :: rest =>
      s ← update_parameter parameter s;
      update_parameters rest s
  end.

Definition dynamicParametersCallback (parameters : list NodeParameter)
    (s : RouteServer) : outcome (RouteServer * SetParametersResult) :=
  s ← update_parameters parameters s;
  mret (s, {| successful := true; reason := EmptyString |}).

End RouteServer.

(** An environment to run the server in: no transform changes a pose,
    the graph always loads, and a duration in seconds is its count of
    nanoseconds as a [double], divided by [1e9]. *)
Definition still_environment : Environment := {|
  TfBuffer := unit;
  new_tf_buffer := tt;
  new_graph_publisher := {| publisher_active := false; published := [] |};
  new_action_server :=
    {| is_server_active := false; is_cancel_requested := false;
       is_preempt_requested := false; server_calls := [] |};
  declared_parameter := fun _ default_value => default_value;
  loadGraphFromFile := fun _ _ g => (true, g);
  getCurrentPose := fun pose _ _ _ => pose;
  transformPoseInTargetFrame := fun pose _ _ => pose;
  seconds := fun nanoseconds => div64 (f64 nanoseconds) (f64 1000000000)
|}.

(** The server before [on_configure]: every handle empty. *)
Definition unconfigured_server : @RouteServer still_environment :=
  @Build_RouteServer still_environment
    None None None None None [] EmptyString EmptyString (f64 0)
    false false [].

(** The server as [on_configure] leaves it in [still_environment]. *)
Definition configured_server : @RouteServer still_environment :=
  @Build_RouteServer still_environment
    (Some (@new_tf_buffer still_environment))
    (Some (@new_tf_buffer still_environment))
    (Some (@new_graph_publisher still_environment))
    (Some (@new_action_server still_environment))
    (Some "map") [] "map" "base_link" (f64 2)
    false false [].
(** * Properties of the path converter *)

Lemma wrap32_range (z : Z) : 0 <= wrap32 z < UINT_MOD.
Proof. unfold wrap32, UINT_MOD. apply Z.mod_pos_bound. lia. Qed.

Lemma wrap32_small (z : Z) : 0 <= z < UINT_MOD -> wrap32 z = z.
Proof. intros Hz. unfold wrap32. now apply Z.mod_small. Qed.

Lemma march_stop ux uy d num_pts pt_ctr px py out :
  ~ pt_ctr < wrap32 (num_pts - 1) ->
  march ux uy d num_pts pt_ctr px py out = out.
Proof.
  intros Hge. simp march.
  destruct (Z_lt_dec pt_ctr (wrap32 (num_pts - 1))) as [Hlt | Hge']; [contradiction |].
  reflexivity.
Qed.

Lemma march_step ux uy d num_pts pt_ctr px py out :
  pt_ctr < wrap32 (num_pts - 1) ->
  march ux uy d num_pts pt_ctr px py out =
  march ux uy d num_pts (wrap32 (pt_ctr + 1))
    (add32 px (mul32 ux d)) (add32 py (mul32 uy d))
    (out ++ [toMsg (add32 px (mul32 ux d)) (add32 py (mul32 uy d))]).
Proof.
  intros Hlt. rewrite march_equation_1.
  destruct (Z_lt_dec pt_ctr (wrap32 (num_pts - 1))) as [Hlt' | Hge]; [| contradiction].
  reflexivity.
Qed.

Lemma march_trail ux uy d num_pts (n : nat) :
  forall pt_ctr px py out,
    0 <= pt_ctr ->
    pt_ctr + Z.of_nat n = wrap32 (num_pts - 1) ->
    march ux uy d num_pts pt_ctr px py out = out ++ trail ux uy d n px py.
Proof.
  induction n as [| n IH]; intros pt_ctr px py out Hpos Hsum.
  - rewrite march_stop by lia. cbn. now rewrite app_nil_r.
  - pose proof (wrap32_range (num_pts - 1)) as Hr.
    rewrite march_step by lia.
    rewrite (wrap32_small (pt_ctr + 1)) by lia.
    rewrite IH by lia.
    cbn [trail]. now rewrite <- app_assoc.
Qed.

Lemma trail_length ux uy d (n : nat) :
  forall px py, length (trail ux uy d n px py) = n.
Proof.
  induction n as [| n IH]; intros px py; cbn; [reflexivity |].
  now rewrite IH.
Qed.

Lemma to_unsigned_range ub_conv (a : binary32) : 0 <= to_unsigned ub_conv a < UINT_MOD.
Proof.
  unfold to_unsigned.
  destruct (Ztrunc a) as [t |]; [| apply wrap32_range].
  destruct (0 <=? t) eqn:Hlo; cbn [andb]; [| apply wrap32_range].
  destruct (t <? UINT_MOD) eqn:Hhi; [| apply wrap32_range].
  apply Z.leb_le in Hlo. apply Z.ltb_lt in Hhi. lia.
Qed.

Lemma interpolateEdge_trail ub_conv libm density_ x0 y0 x1 y1 out :
  interpolateEdge ub_conv libm density_ x0 y0 x1 y1 out =
  out ++ toMsg x0 y0 ::
    trail (div32 (sub32 x1 x0) (mag_of libm x0 y0 x1 y1))
          (div32 (sub32 y1 y0) (mag_of libm x0 y0 x1 y1))
          (stepLength libm x0 y0 x1 y1
             (num_pts_of ub_conv libm density_ x0 y0 x1 y1))
          (Z.to_nat (wrap32 (num_pts_of ub_conv libm density_ x0 y0 x1 y1 - 1)))
          x0 y0.
Proof.
  unfold interpolateEdge, stepLength, num_pts_of, mag_of.
  set (num_pts := to_unsigned _ _).
  pose proof (wrap32_range (num_pts - 1)) as Hr.
  rewrite (march_trail _ _ _ _ (Z.to_nat (wrap32 (num_pts - 1)))) by lia.
  now rewrite <- app_assoc.
Qed.

Lemma interpolateEdge_app ub_conv libm density_ x0 y0 x1 y1 out :
  interpolateEdge ub_conv libm density_ x0 y0 x1 y1 out =
  out ++ interpolateEdge ub_conv libm density_ x0 y0 x1 y1 [].
Proof. now rewrite !interpolateEdge_trail. Qed.

Lemma interpolateEdge_count ub_conv libm density_ x0 y0 x1 y1 :
  Z.of_nat (length (interpolateEdge ub_conv libm density_ x0 y0 x1 y1 [])) =
  1 + wrap32 (num_pts_of ub_conv libm density_ x0 y0 x1 y1 - 1).
Proof.
  rewrite interpolateEdge_trail. cbn [app length].
  rewrite trail_length.
  pose proof (wrap32_range (num_pts_of ub_conv libm density_ x0 y0 x1 y1 - 1)).
  lia.
Qed.

Lemma interpolateEdge_count_bounds ub_conv libm density_ x0 y0 x1 y1 :
  1 <= Z.of_nat (length (interpolateEdge ub_conv libm density_ x0 y0 x1 y1 []))
    <= UINT_MOD.
Proof.
  rewrite interpolateEdge_count.
  pose proof (wrap32_range (num_pts_of ub_conv libm density_ x0 y0 x1 y1 - 1)). lia.
Qed.

(** The named [float]s are the ones nearest to 1/20, 3/20 and 1/16,
    and all are well-formed binary32 numbers. *)
Lemma named_floats :
  div32 (f32 1) (f32 20) = f32_0_05
  /\ div32 (f32 3) (f32 20) = f32_0_15
  /\ div32 (f32 1) (f32 16) = f32_0_0625
  /\ forallb (valid_binary 24 128)
       [f32_0_05; f32_0_15; f32_0_0625; f32_least; f32 1; f32 262144; f32 (2 ^ 33)]
     = true.
Proof. split_and!; vm_compute; reflexivity. Qed.

(** ** The counter *)

Lemma to_integer_Ztrunc (a : spec_float) (n : Z) :
  to_integer a = Some n -> Ztrunc a = Some n.
Proof.
  destruct a as [s | s | | s m e]; cbn [to_integer Ztrunc]; try discriminate.
  - trivial.
  - destruct (0 <=? e); [trivial |].
    destruct (Z.pos m mod 2 ^ (- e) =? 0); [trivial | discriminate].
Qed.

(** An integer that fits [unsigned int] converts to itself. *)
Lemma to_unsigned_integer ub_conv (a : binary32) (n : Z) :
  to_integer a = Some n -> 0 <= n < UINT_MOD -> to_unsigned ub_conv a = n.
Proof.
  intros Ha [Hlo Hhi]. unfold to_unsigned.
  rewrite (to_integer_Ztrunc a n Ha).
  apply Z.leb_le in Hlo. apply Z.ltb_lt in Hhi.
  now rewrite Hlo, Hhi.
Qed.

Lemma num_pts_pointCount ub_conv libm density_ x0 y0 x1 y1 (n : Z) :
  pointCount libm density_ x0 y0 x1 y1 = Some n -> 0 <= n < UINT_MOD ->
  num_pts_of ub_conv libm density_ x0 y0 x1 y1 = n.
Proof. intros Hn Hfit. unfold num_pts_of. now apply to_unsigned_integer. Qed.

(** ** The walk *)

Lemma walk_trail ux uy d (m : nat) :
  forall px py : binary32,
    toMsg px py :: trail ux uy d m px py =
    map (fun k => Nat.iter k (step_pose ux uy d) (toMsg px py)) (seq 0 (S m)).
Proof.
  induction m as [| m IH]; intros px py; [reflexivity |].
  cbn [trail]. rewrite IH.
  change (seq 0 (S (S m))) with (0%nat :: seq 1 (S m)).
  rewrite <- seq_shift, map_cons, map_map. cbn [Nat.iter].
  f_equal. apply map_ext. intros k.
  change (toMsg (add32 px (mul32 ux d)) (add32 py (mul32 uy d)))
    with (step_pose ux uy d (toMsg px py)).
  rewrite Nat.iter_swap. reflexivity.
Qed.

Lemma lookup_map_seq {A : Type} (f : nat -> A) (n : nat) :
  forall (s k : nat) (a : A),
    map f (seq s n) !! k = Some a <-> (k < n)%nat /\ a = f (s + k)%nat.
Proof.
  induction n as [| n IH]; intros s k a; cbn [seq map].
  - split; [intros H; inversion H | intros [H _]; lia].
  - destruct k as [| k]; cbn.
    + rewrite Nat.add_0_r. split.
      * intros [= <-]. split; [lia | reflexivity].
      * intros [_ ->]. reflexivity.
    + rewrite IH. replace (S s + k)%nat with (s + S k)%nat by lia.
      split; intros [Hk Ha]; (split; [lia | exact Ha]).
Qed.

(** With a point count [n] between 1 and [2^32 - 1], [interpolateEdge]
    appends the walk points [0 .. n-1]. *)
Lemma interpolateEdge_walk ub_conv libm density_ x0 y0 x1 y1 (n : Z)
    (out : list PoseStamped) :
  pointCount libm density_ x0 y0 x1 y1 = Some n -> 1 <= n < UINT_MOD ->
  interpolateEdge ub_conv libm density_ x0 y0 x1 y1 out =
  out ++ map (walkPoint libm x0 y0 x1 y1 n) (seq 0 (Z.to_nat n)).
Proof.
  intros Hn Hfit.
  rewrite interpolateEdge_trail.
  rewrite (num_pts_pointCount ub_conv libm density_ x0 y0 x1 y1 n Hn) by lia.
  rewrite wrap32_small by lia.
  rewrite walk_trail.
  replace (S (Z.to_nat (n - 1))) with (Z.to_nat n) by lia.
  reflexivity.
Qed.

(** C1 (amended).  When the point count [n = ceil(mag / density_)],
    taken in [float] arithmetic as the code takes it, is an integer
    between 1 and [2^32 - 1], [interpolateEdge] appends exactly [n]
    points: the first is the start itself, point [k] is the start moved
    [k] steps, and each step adds to a point the unit direction vector
    times the step length [mag / n], every operation rounded to
    [float]. *)
Theorem interpolateEdge_walk_points ub_conv libm density_ x0 y0 x1 y1 (n : Z)
    (out : list PoseStamped) :
  pointCount libm density_ x0 y0 x1 y1 = Some n ->
  1 <= n < UINT_MOD ->
  exists pts : list PoseStamped,
    interpolateEdge ub_conv libm density_ x0 y0 x1 y1 out = out ++ pts
    /\ Z.of_nat (length pts) = n
    /\ head pts = Some (toMsg x0 y0)
    /\ (forall k : nat, (k < length pts)%nat ->
          pts !! k = Some (walkPoint libm x0 y0 x1 y1 n k))
    /\ (forall (k : nat) (p q : PoseStamped),
          pts !! k = Some p -> pts !! S k = Some q ->
          q = advance libm x0 y0 x1 y1 n p).
Proof.
  intros Hn Hfit.
  exists (map (walkPoint libm x0 y0 x1 y1 n) (seq 0 (Z.to_nat n))).
  split; [now apply interpolateEdge_walk |].
  assert (length (map (walkPoint libm x0 y0 x1 y1 n) (seq 0 (Z.to_nat n)))
          = Z.to_nat n) as Hlength
    by now rewrite length_map, length_seq.
  split; [rewrite Hlength; lia |].
  split.
  { replace (Z.to_nat n) with (S (Z.to_nat (n - 1))) by lia. reflexivity. }
  split.
  { intros k Hk. rewrite Hlength in Hk. apply lookup_map_seq. now split. }
  intros k p q Hp Hq.
  apply lookup_map_seq in Hp as [_ ->]. apply lookup_map_seq in Hq as [_ ->].
  reflexivity.
Qed.

Lemma interpolateEdge_walk_points_witness :
  pointCount no_libm f32_0_05 (f32 0) (f32 0) f32_0_15 (f32 0) = Some 3
  /\ 1 <= 3 < UINT_MOD
  /\ exists pts : list PoseStamped,
       interpolateEdge (fun _ => 0) no_libm f32_0_05
         (f32 0) (f32 0) f32_0_15 (f32 0) [] = [] ++ pts
       /\ Z.of_nat (length pts) = 3
       /\ head pts = Some (toMsg (f32 0) (f32 0))
       /\ (forall k : nat, (k < length pts)%nat ->
             pts !! k = Some (walkPoint no_libm (f32 0) (f32 0) f32_0_15 (f32 0) 3 k))
       /\ (forall (k : nat) (p q : PoseStamped),
             pts !! k = Some p -> pts !! S k = Some q ->
             q = advance no_libm (f32 0) (f32 0) f32_0_15 (f32 0) 3 p).
Proof.
  assert (pointCount no_libm f32_0_05 (f32 0) (f32 0) f32_0_15 (f32 0) = Some 3)
    as H1 by (vm_compute; reflexivity).
  assert (1 <= 3 < UINT_MOD) as H2 by (unfold UINT_MOD; lia).
  split; [exact H1 |]. split; [exact H2 |].
  exact (interpolateEdge_walk_points (fun _ => 0) no_libm f32_0_05
           (f32 0) (f32 0) f32_0_15 (f32 0) 3 [] H1 H2).
Defined.

(** C1 as stated fails on a segment of length zero, where [n = 0] but
    the start pose is still emitted (and the unsigned bound wraps); on
    a segment whose point count exceeds the 32-bit counter; for a
    negative spacing, where [n] is negative; and, through rounding, on
    the segment from (262144, 0) to (262145, 0) at spacing 0.05f: there
    [n = 20] and the step length is 0.05f, yet consecutive points are
    0.0625 apart and the 17th point is the segment's end. *)
Lemma interpolateEdge_degenerate_segments :
  (forall ub_conv libm,
     pointCount libm (f32 1) (f32 0) (f32 0) (f32 0) (f32 0) = Some 0
     /\ Z.of_nat (length (interpolateEdge ub_conv libm (f32 1)
                            (f32 0) (f32 0) (f32 0) (f32 0) [])) <> 0)
  /\ (forall ub_conv libm,
        pointCount libm (f32 1) (f32 0) (f32 0) (f32 (2 ^ 33)) (f32 0)
        = Some (2 ^ 33)
        /\ Z.of_nat (length (interpolateEdge ub_conv libm (f32 1)
                               (f32 0) (f32 0) (f32 (2 ^ 33)) (f32 0) []))
           <> 2 ^ 33)
  /\ (forall ub_conv libm,
        pointCount libm (f32 (-1)) (f32 0) (f32 0) (f32 1) (f32 0) = Some (-1)
        /\ Z.of_nat (length (interpolateEdge ub_conv libm (f32 (-1))
                               (f32 0) (f32 0) (f32 1) (f32 0) [])) <> -1)
  /\ (forall ub_conv libm,
        let pts :=
          interpolateEdge ub_conv libm f32_0_05
            (f32 262144) (f32 0) (f32 262145) (f32 0) [] in
        pointCount libm f32_0_05 (f32 262144) (f32 0) (f32 262145) (f32 0)
        = Some 20
        /\ Z.of_nat (length pts) = 20
        /\ stepLength libm (f32 262144) (f32 0) (f32 262145) (f32 0) 20 = f32_0_05
        /\ pts !! 0%nat = Some (toMsg (f32 262144) (f32 0))
        /\ pts !! 1%nat = Some (toMsg (add32 (f32 262144) f32_0_0625) (f32 0))
        /\ pts !! 16%nat = Some (toMsg (f32 262145) (f32 0))).
Proof.
  split; [| split; [| split]]; intros ub_conv libm.
  - split; [vm_compute; reflexivity |].
    pose proof (interpolateEdge_count_bounds ub_conv libm (f32 1)
                  (f32 0) (f32 0) (f32 0) (f32 0)). lia.
  - split; [vm_compute; reflexivity |].
    pose proof (interpolateEdge_count_bounds ub_conv libm (f32 1)
                  (f32 0) (f32 0) (f32 (2 ^ 33)) (f32 0)) as Hb.
    unfold UINT_MOD in Hb. lia.
  - split; [vm_compute; reflexivity |].
    pose proof (interpolateEdge_count_bounds ub_conv libm (f32 (-1))
                  (f32 0) (f32 0) (f32 1) (f32 0)). lia.
  - cbv zeta. rewrite interpolateEdge_trail.
    split_and!; vm_compute; reflexivity.
Qed.

(** C10 (amended).  With a spacing [density_ > 0]: when the endpoints
    are a strictly positive distance [mag] apart and [ceil(mag /
    density_)], the quotient being the [float] one, is an integer
    between 1 and [2^32 - 1], [interpolateEdge] (a total function: the
    loop terminates) appends exactly that many poses, the first being
    the start point; when [mag] is zero the counter [num_pts] is 0, the
    unsigned bound [num_pts - 1] wraps to [2^32 - 1] and [2^32] poses
    are appended instead of none. *)
Theorem interpolateEdge_pose_count ub_conv libm density_ x0 y0 x1 y1
    (out : list PoseStamped) :
  SFltb (f32 0) density_ = true ->
  (forall n : Z,
     SFltb (f32 0) (mag_of libm x0 y0 x1 y1) = true ->
     pointCount libm density_ x0 y0 x1 y1 = Some n ->
     1 <= n < UINT_MOD ->
     exists pts : list PoseStamped,
       interpolateEdge ub_conv libm density_ x0 y0 x1 y1 out = out ++ pts
       /\ Z.of_nat (length pts) = n
       /\ head pts = Some (toMsg x0 y0))
  /\ (SFeqb (mag_of libm x0 y0 x1 y1) (f32 0) = true ->
      num_pts_of ub_conv libm density_ x0 y0 x1 y1 = 0
      /\ wrap32 (0 - 1) = UINT_MOD - 1
      /\ pointCount libm density_ x0 y0 x1 y1 = Some 0
      /\ exists pts : list PoseStamped,
           interpolateEdge ub_conv libm density_ x0 y0 x1 y1 out = out ++ pts
           /\ Z.of_nat (length pts) = UINT_MOD).
Proof.
  intros Hd. split.
  - intros n _ Hn Hfit.
    exists (interpolateEdge ub_conv libm density_ x0 y0 x1 y1 []).
    split; [apply interpolateEdge_app |].
    split.
    + rewrite interpolateEdge_count.
      rewrite (num_pts_pointCount ub_conv libm density_ x0 y0 x1 y1 n Hn) by lia.
      rewrite wrap32_small by lia. lia.
    + now rewrite interpolateEdge_trail.
  - intros Hz.
    assert (pointCount libm density_ x0 y0 x1 y1 = Some 0) as Hcount.
    { unfold pointCount.
      destruct (mag_of libm x0 y0 x1 y1) as [s | [|] | | [|] m e];
        try discriminate Hz.
      destruct density_ as [sd | sd | | sd md ed]; try discriminate Hd;
        reflexivity. }
    assert (num_pts_of ub_conv libm density_ x0 y0 x1 y1 = 0) as Hnum
      by (apply num_pts_pointCount; [exact Hcount | unfold UINT_MOD; lia]).
    split; [exact Hnum |]. split; [reflexivity |]. split; [exact Hcount |].
    exists (interpolateEdge ub_conv libm density_ x0 y0 x1 y1 []).
    split; [apply interpolateEdge_app |].
    rewrite interpolateEdge_count, Hnum. reflexivity.
Qed.

Lemma interpolateEdge_pose_count_witness :
  SFltb (f32 0) f32_0_05 = true
  /\ SFltb (f32 0) (mag_of no_libm (f32 0) (f32 0) f32_0_15 (f32 0)) = true
  /\ pointCount no_libm f32_0_05 (f32 0) (f32 0) f32_0_15 (f32 0) = Some 3
  /\ 1 <= 3 < UINT_MOD
  /\ exists pts : list PoseStamped,
       interpolateEdge (fun _ => 0) no_libm f32_0_05
         (f32 0) (f32 0) f32_0_15 (f32 0) [] = [] ++ pts
       /\ Z.of_nat (length pts) = 3
       /\ head pts = Some (toMsg (f32 0) (f32 0)).
Proof.
  assert (SFltb (f32 0) f32_0_05 = true) as H1 by (vm_compute; reflexivity).
  assert (SFltb (f32 0) (mag_of no_libm (f32 0) (f32 0) f32_0_15 (f32 0)) = true)
    as H2 by (vm_compute; reflexivity).
  assert (pointCount no_libm f32_0_05 (f32 0) (f32 0) f32_0_15 (f32 0) = Some 3)
    as H3 by (vm_compute; reflexivity).
  assert (1 <= 3 < UINT_MOD) as H4 by (unfold UINT_MOD; lia).
  split; [exact H1 |]. split; [exact H2 |]. split; [exact H3 |].
  split; [exact H4 |].
  exact (proj1 (interpolateEdge_pose_count (fun _ => 0) no_libm f32_0_05
                  (f32 0) (f32 0) f32_0_15 (f32 0) [] H1) 3 H2 H3 H4).
Defined.

(** C10 as stated fails when [ceil(mag / density_)] does not fit
    [unsigned int]: with spacing 1 and endpoints [2^33] apart the
    preconditions hold, yet at most [2^32] poses are appended whatever
    the out-of-range conversion yields.  It also fails when the quotient
    is read as the exact one: at spacing 0.05f and endpoints 0.15f apart
    the ceiling of the exact quotient is 4, the [float] quotient is 3.0
    and 3 poses are appended.  And a positive [mag] does not keep the
    counter from being zero: at spacing 4 and endpoints [2^-149] apart
    (the least positive [float]) the [float] quotient is 0 and [2^32]
    poses are appended. *)
Lemma interpolateEdge_count_overflow :
  (forall ub_conv libm,
     SFltb (f32 0) (f32 1) = true
     /\ SFltb (f32 0) (mag_of libm (f32 0) (f32 0) (f32 (2 ^ 33)) (f32 0)) = true
     /\ pointCount libm (f32 1) (f32 0) (f32 0) (f32 (2 ^ 33)) (f32 0)
        = Some (2 ^ 33)
     /\ Z.of_nat (length (interpolateEdge ub_conv libm (f32 1)
                            (f32 0) (f32 0) (f32 (2 ^ 33)) (f32 0) []))
        < 2 ^ 33)
  /\ (forall ub_conv libm,
        SFltb (f32 0) f32_0_05 = true
        /\ mag_of libm (f32 0) (f32 0) f32_0_15 (f32 0) = f32_0_15
        /\ exact_ceil_quotient f32_0_15 f32_0_05 = Some 4
        /\ div32 f32_0_15 f32_0_05 = f32 3
        /\ Z.of_nat (length (interpolateEdge ub_conv libm f32_0_05
                               (f32 0) (f32 0) f32_0_15 (f32 0) [])) = 3)
  /\ (forall ub_conv libm,
        SFltb (f32 0) (f32 4) = true
        /\ SFltb (f32 0) (mag_of libm (f32 0) (f32 0) f32_least (f32 0)) = true
        /\ exact_ceil_quotient f32_least (f32 4) = Some 1
        /\ pointCount libm (f32 4) (f32 0) (f32 0) f32_least (f32 0) = Some 0
        /\ Z.of_nat (length (interpolateEdge ub_conv libm (f32 4)
                               (f32 0) (f32 0) f32_least (f32 0) [])) = UINT_MOD).
Proof.
  split; [| split]; intros ub_conv libm.
  - split; [vm_compute; reflexivity |].
    split; [vm_compute; reflexivity |].
    split; [vm_compute; reflexivity |].
    pose proof (interpolateEdge_count_bounds ub_conv libm (f32 1)
                  (f32 0) (f32 0) (f32 (2 ^ 33)) (f32 0)) as Hb.
    unfold UINT_MOD in Hb. lia.
  - split; [vm_compute; reflexivity |].
    split; [vm_compute; reflexivity |].
    split; [vm_compute; reflexivity |].
    split; [vm_compute; reflexivity |].
    rewrite interpolateEdge_count.
    rewrite (num_pts_pointCount ub_conv libm f32_0_05
               (f32 0) (f32 0) f32_0_15 (f32 0) 3);
      [reflexivity | vm_compute; reflexivity | unfold UINT_MOD; lia].
  - split; [vm_compute; reflexivity |].
    split; [vm_compute; reflexivity |].
    split; [vm_compute; reflexivity |].
    split; [vm_compute; reflexivity |].
    rewrite interpolateEdge_count.
    rewrite (num_pts_pointCount ub_conv libm (f32 4)
               (f32 0) (f32 0) f32_least (f32 0) 0);
      [reflexivity | vm_compute; reflexivity | unfold UINT_MOD; lia].
Qed.

(** ** densify *)

Lemma fill_edges_app ub_conv libm density_ (es : list DirectionalEdge) :
  forall out : list PoseStamped,
    fold_left
      (fun acc edge =>
         interpolateEdge ub_conv libm density_
           (x (coords (start edge))) (y (coords (start edge)))
           (x (coords (end_ edge))) (y (coords (end_ edge))) acc) es out =
    out ++
    fold_left
      (fun acc edge =>
         interpolateEdge ub_conv libm density_
           (x (coords (start edge))) (y (coords (start edge)))
           (x (coords (end_ edge))) (y (coords (end_ edge))) acc) es [].
Proof.
  induction es as [| e es IH]; intros out; cbn [fold_left].
  - now rewrite app_nil_r.
  - rewrite IH. symmetry. rewrite IH. rewrite app_assoc.
    f_equal. symmetry. apply interpolateEdge_app.
Qed.

Lemma List_last_cons {A : Type} (l : list A) :
  forall a b : A, List.last (b :: l) a = List.last l b.
Proof.
  induction l as [| c l IH]; intros a b; [reflexivity |].
  change (List.last (b :: c :: l) a) with (List.last (c :: l) a).
  now rewrite !IH.
Qed.

Lemma last_cons_default {A : Type} (l : list A) :
  forall a : A, last (a :: l) = Some (List.last l a).
Proof.
  induction l as [| b l IH]; intros a; [reflexivity |].
  rewrite last_cons_cons, IH. f_equal. symmetry. apply List_last_cons.
Qed.

(** C2.  Without a rerouting partial edge, the last pose of the path is
    the end point of the route's last edge; for a route without edges
    the path is the single pose at the start node. *)
Theorem densify_final_point ub_conv libm density_ (route : Route)
    (c : Coordinates) (frame : string) (now : Z) (pub : list Path) :
  match last (edges route) with
  | Some b =>
      last (poses (densify ub_conv libm density_ route
                     {| curr_edge := None; closest_pt_on_edge := c |}
                     frame now pub).1)
      = Some (toMsg (x (coords (end_ b))) (y (coords (end_ b))))
  | None =>
      poses (densify ub_conv libm density_ route
               {| curr_edge := None; closest_pt_on_edge := c |}
               frame now pub).1
      = [toMsg (x (coords (start_node route))) (y (coords (start_node route)))]
  end.
Proof.
  unfold densify. cbn [curr_edge fst poses].
  destruct (edges route) as [| e0 es] eqn:Hedges.
  - reflexivity.
  - rewrite last_cons_default. apply last_snoc.
Qed.


(** ** Further properties of the path converter *)

(** The poses one route edge contributes on its own. *)
Lemma fill_edges_flat_map ub_conv libm density_ (es : list DirectionalEdge) :
  forall out : list PoseStamped,
    fold_left
      (fun acc edge =>
         interpolateEdge ub_conv libm density_
           (x (coords (start edge))) (y (coords (start edge)))
           (x (coords (end_ edge))) (y (coords (end_ edge))) acc) es out =
    out ++
    flat_map
      (fun edge =>
         interpolateEdge ub_conv libm density_
           (x (coords (start edge))) (y (coords (start edge)))
           (x (coords (end_ edge))) (y (coords (end_ edge))) []) es.
Proof.
  induction es as [| e es IH]; intros out; cbn [fold_left flat_map].
  - now rewrite app_nil_r.
  - rewrite IH, interpolateEdge_app. now rewrite <- app_assoc.
Qed.

(** Whatever the inputs (non-finite ones included), [interpolateEdge]
    keeps the poses it is given and appends between 1 and [2^32] poses,
    the first of which is the start point. *)
Theorem interpolateEdge_appends ub_conv libm density_ (x0 y0 x1 y1 : binary32)
    (out : list PoseStamped) :
  exists pts : list PoseStamped,
    interpolateEdge ub_conv libm density_ x0 y0 x1 y1 out = out ++ pts
    /\ head pts = Some (toMsg x0 y0)
    /\ 1 <= Z.of_nat (length pts) <= UINT_MOD.
Proof.
  exists (interpolateEdge ub_conv libm density_ x0 y0 x1 y1 []).
  split; [apply interpolateEdge_app |].
  split; [now rewrite interpolateEdge_trail |].
  apply interpolateEdge_count_bounds.
Qed.

(** The path of a route without rerouting state is the interpolation
    of each edge, in route order, followed by the final point. *)
Theorem densify_route_order ub_conv libm density_ (route : Route) (c : Coordinates)
    (frame : string) (now : Z) (pub : list Path) :
  poses (densify ub_conv libm density_ route
           {| curr_edge := None; closest_pt_on_edge := c |} frame now pub).1
  = flat_map
      (fun edge =>
         interpolateEdge ub_conv libm density_
           (x (coords (start edge))) (y (coords (start edge)))
           (x (coords (end_ edge))) (y (coords (end_ edge))) [])
      (edges route)
    ++ [match last (edges route) with
        | Some b => toMsg (x (coords (end_ b))) (y (coords (end_ b)))
        | None => toMsg (x (coords (start_node route))) (y (coords (start_node route)))
        end].
Proof.
  unfold densify. cbn [curr_edge fst poses].
  rewrite fill_edges_flat_map. cbn [app].
  destruct (edges route) as [| e0 es]; [reflexivity |].
  now rewrite last_cons_default.
Qed.

(** [densify] stamps the path with the frame and time it is given and
    publishes exactly the path it returns. *)
Theorem densify_header_and_publish ub_conv libm density_ (route : Route)
    (rerouting_info : ReroutingState) (frame : string) (now : Z)
    (pub : list Path) :
  frame_id (densify ub_conv libm density_ route rerouting_info frame now pub).1 = frame
  /\ stamp (densify ub_conv libm density_ route rerouting_info frame now pub).1 = now
  /\ (densify ub_conv libm density_ route rerouting_info frame now pub).2
     = pub ++ [(densify ub_conv libm density_ route rerouting_info frame now pub).1].
Proof.
  unfold densify. cbn [fst snd frame_id stamp].
  split; [reflexivity |]. split; reflexivity.
Qed.

(** * Properties of the scoring plugins *)

Lemma Rzero_false (r : R) : r <> 0%R -> Rzero r = false.
Proof. intros Hr. unfold Rzero. now destruct (Req_dec_T r 0). Qed.

Lemma fdiv_real (a b : R) : b <> 0%R -> fdiv (FReal a) (FReal b) = FReal (a / b).
Proof. intros Hb. cbn. now rewrite Rzero_false. Qed.

Lemma fadd_0_l (a : float) : fadd (FReal 0) a = a.
Proof. destruct a as [r | s |]; cbn; [f_equal; ring | reflexivity | reflexivity]. Qed.

Lemma fadd_0_r (a : float) : fadd a (FReal 0) = a.
Proof. destruct a as [r | s |]; cbn; [f_equal; ring | reflexivity | reflexivity]. Qed.

(** C4.  The Dynamic Adjustment scorer reports not-traversable exactly
    for the edges of the ClosedEdgeSet; an open edge costs its override
    when it has one and 0 otherwise; reopening an edge makes it
    traversable again, at that same cost. *)
Theorem adjust_edges_score (s : AdjustEdgesScorer.t) (e : DirectionalEdge) :
  (score s e = NotTraversable <-> edgeid e ∈ AdjustEdgesScorer.ClosedEdgeSet s)
  /\ (edgeid e ∉ AdjustEdgesScorer.ClosedEdgeSet s ->
      score s e =
      Traversable (default (FReal 0) (AdjustEdgesScorer.OverrideCostMap s !! edgeid e)))
  /\ (forall ids : list Z,
        edgeid e ∈ ids ->
        score (AdjustEdgesScorer.reopen_edges ids s) e =
        Traversable (default (FReal 0) (AdjustEdgesScorer.OverrideCostMap s !! edgeid e))).
Proof.
  assert (forall s', edgeid e ∉ AdjustEdgesScorer.ClosedEdgeSet s' ->
            score s' e =
            Traversable (default (FReal 0)
                           (AdjustEdgesScorer.OverrideCostMap s' !! edgeid e))) as Hopen.
  { intros s' Hn. unfold score, AdjustEdgesScorer_fn, AdjustEdgesScorer.score.
    destruct (decide (edgeid e ∈ AdjustEdgesScorer.ClosedEdgeSet s')) as [Hc | _];
      [contradiction |].
    now destruct (AdjustEdgesScorer.OverrideCostMap s' !! edgeid e). }
  split; [| split].
  - unfold score, AdjustEdgesScorer_fn, AdjustEdgesScorer.score.
    destruct (decide (edgeid e ∈ AdjustEdgesScorer.ClosedEdgeSet s)) as [Hc | Hn].
    + tauto.
    + split; [| contradiction].
      now destruct (AdjustEdgesScorer.OverrideCostMap s !! edgeid e).
  - apply Hopen.
  - intros ids Hin.
    rewrite Hopen; [reflexivity |].
    cbn. rewrite elem_of_difference, elem_of_list_to_set. tauto.
Qed.

(** The scenario of [test_invalid_edge_scoring]: close edge 10 and
    override edge 11 with cost 42, then reopen edge 10. *)
Lemma adjust_edges_test_scenario (e : DirectionalEdge) :
  let req := {| AdjustEdgesScorer.closed_edges := [10];
                AdjustEdgesScorer.opened_edges := [];
                AdjustEdgesScorer.adjust_edges := [(11, FReal 42)] |} in
  let req2 := {| AdjustEdgesScorer.closed_edges := [];
                 AdjustEdgesScorer.opened_edges := [10];
                 AdjustEdgesScorer.adjust_edges := [] |} in
  let s1 := (AdjustEdgesScorer.adjust_edges_service req AdjustEdgesScorer.init).1 in
  let s2 := (AdjustEdgesScorer.adjust_edges_service req2 s1).1 in
  score s1 (with_edgeid 10 e) = NotTraversable
  /\ score s1 (with_edgeid 11 e) = Traversable (FReal 42)
  /\ score s2 (with_edgeid 10 e) = Traversable (FReal 0).
Proof.
  cbv zeta.
  unfold score, AdjustEdgesScorer_fn, AdjustEdgesScorer.score,
    AdjustEdgesScorer.adjust_edges_service, AdjustEdgesScorer.override_costs,
    AdjustEdgesScorer.reopen_edges, AdjustEdgesScorer.close_edges,
    AdjustEdgesScorer.init, with_edgeid.
  cbn [fst edgeid fold_left snd
       AdjustEdgesScorer.ClosedEdgeSet AdjustEdgesScorer.OverrideCostMap
       AdjustEdgesScorer.closed_edges AdjustEdgesScorer.opened_edges
       AdjustEdgesScorer.adjust_edges].
  split; [| split].
  - rewrite decide_True; [reflexivity |].
    rewrite elem_of_difference, elem_of_union, !elem_of_list_to_set.
    split; [right; constructor | apply not_elem_of_nil].
  - rewrite decide_False; [now rewrite lookup_insert_eq |].
    rewrite elem_of_difference, elem_of_union, !elem_of_list_to_set.
    rewrite list_elem_of_singleton, elem_of_empty. intros [[[] | [=]] _].
  - rewrite decide_False.
    + rewrite lookup_insert_ne by lia. now rewrite lookup_empty.
    + rewrite elem_of_difference, !elem_of_list_to_set.
      intros [_ Hn]. apply Hn. constructor.
Qed.

Lemma getFloat_setValue_float (m : Metadata) (key : string) (f : float) :
  getFloat (setValue key (MFloat f) m) key = Some f.
Proof. unfold getFloat, setValue. cbn [data]. now rewrite lookup_insert_eq. Qed.


(** The scenario of [test_time_scoring]: a 1 m edge, default maximum
    speed 0.5 m/s. *)
Lemma time_scorer_test_scenario (n1 n2 : Node) (e : DirectionalEdge) :
  coords n1 = {| x := f32 1; y := f32 0 |} ->
  coords n2 = {| x := f32 0; y := f32 0 |} ->
  start e = n1 -> end_ e = n2 ->
  let p := {| TimeScorer.max_vel := FReal (1 / 2) |} in
  let m1 := setValue "abs_time_taken" (MFloat (FReal 10)) (metadata e) in
  let m2 := clear m1 in
  let m3 := setValue "abs_speed_limit" (MFloat (FReal (85 / 100))) m2 in
  let m4 := setValue "abs_time_taken" (MFloat (FReal 10)) m3 in
  score p (with_metadata m1 e) = Traversable (FReal 10)
  /\ score p (with_metadata m2 e) = Traversable (FReal 2)
  /\ score p (with_metadata m3 e) = Traversable (FReal (100 / 85))
  /\ score p (with_metadata m4 e) = Traversable (FReal 10).
Proof.
  intros Hn1 Hn2 Hs He. cbv zeta.
  assert (forall m, edge_length (with_metadata m e) = FReal 1) as Hlen.
  { intros m. unfold edge_length, with_metadata. cbn [start end_].
    rewrite Hs, He, Hn1, Hn2. cbn [x y].
    change (f32 1) with (S754_finite false 8388608 (-23)).
    change (f32 0) with (S754_zero false).
    cbn [value Z.leb Z.compare cond_Zopp Z.opp].
    change (2 ^ (- (-23))) with 8388608.
    cbn [fsub fadd fopp euclidean]. f_equal.
    replace ((0 + - (8388608 / 8388608)) * (0 + - (8388608 / 8388608))
             + (0 + - 0) * (0 + - 0))%R with (1 * 1)%R by field.
    apply sqrt_square. lra. }
  unfold score, TimeScorer_fn, TimeScorer.score.
  rewrite !Hlen. unfold with_metadata. cbn [metadata TimeScorer.max_vel].
  split; [now rewrite getFloat_setValue_float |].
  split; [| split].
  - unfold getFloat, clear. cbn [data]. rewrite !lookup_empty.
    rewrite fdiv_real by lra. f_equal. f_equal. field.
  - rewrite getFloat_setValue_float.
    unfold getFloat at 1. unfold setValue, clear. cbn [data].
    rewrite lookup_insert_ne by discriminate. rewrite lookup_empty.
    rewrite fdiv_real by lra. f_equal. f_equal. field.
  - now rewrite getFloat_setValue_float.
Qed.

(** C6.  A Costmap scorer that never received a raster answers
    not-traversable under the default policy; when off-map is not
    fatal it answers traversable with cost 0, as for a segment off the
    map.  Either way the answer is a [ScoreResult], not an error. *)
Theorem costmap_scorer_without_raster (Raster : Type)
    (line_samples : Raster -> Coordinates -> Coordinates -> list (option Z))
    (e : DirectionalEdge) :
  CostmapScorer.score Raster line_samples (CostmapScorer.default_policy Raster None) e
    = NotTraversable
  /\ (forall p : CostmapScorer.t Raster,
        CostmapScorer.costmap Raster p = None ->
        CostmapScorer.score Raster line_samples p e =
        if CostmapScorer.invalid_off_map Raster p then NotTraversable
        else Traversable (FReal 0))
  /\ (forall (p : CostmapScorer.t Raster) (raster : Raster),
        CostmapScorer.costmap Raster p = None ->
        CostmapScorer.invalid_off_map Raster p = false ->
        Forall (fun s => s = None)
          (line_samples raster (coords (start e)) (coords (end_ e))) ->
        CostmapScorer.score Raster line_samples p e =
        CostmapScorer.score Raster line_samples
          {| CostmapScorer.costmap := Some raster;
             CostmapScorer.use_maximum := CostmapScorer.use_maximum Raster p;
             CostmapScorer.invalid_on_collision :=
               CostmapScorer.invalid_on_collision Raster p;
             CostmapScorer.invalid_off_map := false |} e).
Proof.
  split; [reflexivity |]. split.
  - intros p Hnone. unfold CostmapScorer.score. now rewrite Hnone.
  - intros p raster Hnone Hoff Hall.
    unfold CostmapScorer.score. rewrite Hnone, Hoff. cbn.
    rewrite andb_false_r.
    assert (CostmapScorer.in_map
              (line_samples raster (coords (start e)) (coords (end_ e))) = [])
      as ->.
    { unfold CostmapScorer.in_map.
      induction Hall as [| s l Hs _ IH]; [reflexivity |].
      subst s. cbn. exact IH. }
    unfold CostmapScorer.maximum, CostmapScorer.average, CostmapScorer.LETHAL.
    cbn [CostmapScorer.collides existsb andb fold_right].
    destruct (CostmapScorer.use_maximum Raster p);
      rewrite fdiv_real by lra; f_equal; f_equal; lra.
Qed.

Lemma metadataValueScorer_classWeight (p : SemanticScorer.t) (m : Metadata)
    (acc : float) :
  SemanticScorer.metadataValueScorer p m acc = fadd acc (classWeight p m).
Proof.
  unfold SemanticScorer.metadataValueScorer, classWeight.
  destruct (getString m (SemanticScorer.semantic_key p)) as [cls |];
    [| now rewrite fadd_0_r].
  destruct (SemanticScorer.class_table p !! cls) as [w |]; cbn [default];
    [reflexivity | now rewrite fadd_0_r].
Qed.

Lemma semantic_score_value_mode (p : SemanticScorer.t) (e : DirectionalEdge) :
  SemanticScorer.semantic_key p <> EmptyString ->
  score p e =
  Traversable (fadd (classWeight p (metadata e))
                    (classWeight p (node_metadata (end_ e)))).
Proof.
  intros Hkey.
  unfold score, SemanticScorer_fn, SemanticScorer.score, SemanticScorer.contribution.
  destruct (decide (SemanticScorer.semantic_key p = EmptyString)) as [Hk | _];
    [contradiction |].
  now rewrite !metadataValueScorer_classWeight, fadd_0_l.
Qed.


(** The scenario of [test_semantic_scoring_key]: classes Test, Test1,
    Test2 with weights 0, 1, 2. *)
Lemma semantic_scorer_test_scenario (e : DirectionalEdge) (n2 : Node) :
  let p := {| SemanticScorer.semantic_classes :=
                [("Test", FReal 0); ("Test1", FReal 1); ("Test2", FReal 2)];
              SemanticScorer.semantic_key := "class" |} in
  let tag (c : string) (m : Metadata) := setValue "class" (MString c) m in
  let edge_with (em nm : Metadata) :=
    {| edgeid := edgeid e; start := start e;
       end_ := {| nodeid := nodeid n2; coords := coords n2; node_metadata := nm |};
       metadata := em |} in
  let none := {| data := ∅ |} in
  score p (edge_with none none) = Traversable (FReal 0)
  /\ score p (edge_with (tag "Test1" none) none) = Traversable (FReal 1)
  /\ score p (edge_with (tag "Test2" none) (tag "Test2" none)) = Traversable (FReal 4)
  /\ score p (edge_with (tag "Test4" none) (tag "Test4" none)) = Traversable (FReal 0).
Proof.
  cbv zeta.
  rewrite !semantic_score_value_mode by discriminate.
  cbn [metadata end_ node_metadata].
  split; [| split; [| split]]; class_lookup; f_equal; f_equal; lra.
Qed.

Lemma load_plugins_outcome (registry : gmap string ScoringPlugin)
    (cfg : list PluginConfig) :
  match load_plugins registry cfg with
  | inl (UnresolvedPlugin n) =>
      exists c : PluginConfig,
        c ∈ cfg /\ plugin_name c = n /\ registry !! plugin_name c = None
  | inr ps =>
      length ps = length cfg
      /\ forall c : PluginConfig, c ∈ cfg -> is_Some (registry !! plugin_name c)
  end.
Proof.
  induction cfg as [| c cfg IH]; cbn [load_plugins].
  - split; [reflexivity |]. intros c Hc. now apply elem_of_nil in Hc.
  - unfold resolve.
    destruct (registry !! plugin_name c) as [p |] eqn:Hc.
    + cbn. destruct (load_plugins registry cfg) as [[n] | ps]; cbn.
      * destruct IH as (c' & Hin & Hn & Hnone).
        exists c'. split; [apply elem_of_cons; now right | now split].
      * destruct IH as [Hlen Hall]. split; [now rewrite Hlen |].
        intros c' Hin. apply elem_of_cons in Hin as [-> | Hin].
        -- rewrite Hc. now eexists.
        -- now apply Hall.
    + cbn. exists c. split; [apply elem_of_cons; now left | now split].
Qed.

(** C8.  Constructing the engine fails with a ConfigurationError
    exactly when some configured plugin name does not resolve, and an
    engine that was constructed reports as many plugins as were
    configured. *)
Theorem edge_scorer_construction (registry : gmap string ScoringPlugin)
    (cfg : list PluginConfig) :
  ((exists c : PluginConfig, c ∈ cfg /\ registry !! plugin_name c = None)
   <-> exists err : ConfigurationError, EdgeScorer_new registry cfg = inl err)
  /\ (forall s : EdgeScorer,
        EdgeScorer_new registry cfg = inr s -> numPlugins s = length cfg)
  /\ ((forall c : PluginConfig, c ∈ cfg -> is_Some (registry !! plugin_name c)) ->
      exists s : EdgeScorer,
        EdgeScorer_new registry cfg = inr s /\ numPlugins s = length cfg).
Proof.
  pose proof (load_plugins_outcome registry cfg) as Hload.
  unfold EdgeScorer_new, numPlugins.
  destruct (load_plugins registry cfg) as [[n] | ps]; cbn.
  - destruct Hload as (c & Hin & Hn & Hnone).
    split; [| split].
    + split; [intros _; now eexists | intros _; now exists c].
    + intros s [=].
    + intros Hall. destruct (Hall c Hin) as [p Hp]. congruence.
  - destruct Hload as [Hlen Hall].
    split; [| split].
    + split.
      * intros (c & Hin & Hnone). destruct (Hall c Hin) as [p Hp]. congruence.
      * intros [err [=]].
    + intros s [= <-]. exact Hlen.
    + intros _. eexists. split; [reflexivity | exact Hlen].
Qed.

(** The configurations of [test_api] and [test_failed_api]: the default
    pair of plugins loads, a name the registry does not know does not. *)
Lemma edge_scorer_test_scenarios (distance adjust : ScoringPlugin) :
  let registry : gmap string ScoringPlugin :=
    <["DistanceScorer" := distance]> (<["AdjustEdgesScorer" := adjust]> ∅) in
  let one := FReal 1 in
  (exists s : EdgeScorer,
     EdgeScorer_new registry
       [ {| plugin_name := "DistanceScorer"; plugin_weight := one |};
         {| plugin_name := "AdjustEdgesScorer"; plugin_weight := one |} ] = inr s
     /\ numPlugins s = 2%nat)
  /\ EdgeScorer_new registry [ {| plugin_name := "FakeScorer"; plugin_weight := one |} ]
     = inl (UnresolvedPlugin "FakeScorer").
Proof.
  cbv zeta. unfold EdgeScorer_new. cbn [load_plugins]. unfold resolve.
  cbn [plugin_name plugin_weight].
  rewrite lookup_insert_eq.
  rewrite (lookup_insert_ne _ "DistanceScorer" "AdjustEdgesScorer") by discriminate.
  rewrite lookup_insert_eq.
  rewrite !lookup_insert_ne by discriminate. rewrite lookup_empty.
  split; [| reflexivity].
  eexists. split; reflexivity.
Qed.

(** * Size of the densified path *)

(** ** A segment of length zero *)

Lemma sub32_diag (a : binary32) :
  is_finite a = true -> sub32 a a = S754_zero false.
Proof.
  destruct a as [[|] | s | | s m e]; try discriminate; intros _; try reflexivity.
  unfold sub32, SFsub. now rewrite Z.sub_diag.
Qed.

Lemma add32_nan_r (a : binary32) : add32 a S754_nan = S754_nan.
Proof. now destruct a. Qed.

Lemma trail_nan (d : binary32) (n : nat) :
  forall px py : binary32,
    trail S754_nan S754_nan d n px py = replicate n (toMsg S754_nan S754_nan).
Proof.
  induction n as [| n IH]; intros px py; [reflexivity |].
  cbn [trail replicate].
  change (mul32 S754_nan d) with S754_nan.
  rewrite !add32_nan_r. now rewrite IH.
Qed.

Lemma mag_of_point libm (x0 y0 : binary32) :
  is_finite x0 = true -> is_finite y0 = true ->
  mag_of libm x0 y0 x0 y0 = S754_zero false.
Proof.
  intros Hx Hy. unfold mag_of. now rewrite !sub32_diag.
Qed.

Lemma num_pts_point ub_conv libm (density_ x0 y0 : binary32) :
  is_nonzero_number density_ = true ->
  is_finite x0 = true -> is_finite y0 = true ->
  num_pts_of ub_conv libm density_ x0 y0 x0 y0 = 0.
Proof.
  intros Hd Hx Hy. unfold num_pts_of. rewrite mag_of_point by assumption.
  destruct density_ as [s | s | | s m e]; try discriminate Hd; reflexivity.
Qed.

Lemma wrap32_minus_one : wrap32 (0 - 1) = UINT_MOD - 1.
Proof. reflexivity. Qed.

Lemma point_trail ub_conv libm (density_ x0 y0 : binary32) :
  is_nonzero_number density_ = true ->
  is_finite x0 = true -> is_finite y0 = true ->
  trail (div32 (sub32 x0 x0) (mag_of libm x0 y0 x0 y0))
        (div32 (sub32 y0 y0) (mag_of libm x0 y0 x0 y0))
        (stepLength libm x0 y0 x0 y0
           (num_pts_of ub_conv libm density_ x0 y0 x0 y0))
        (Z.to_nat (wrap32 (num_pts_of ub_conv libm density_ x0 y0 x0 y0 - 1)))
        x0 y0
  = replicate (Z.to_nat (UINT_MOD - 1)) (toMsg S754_nan S754_nan).
Proof.
  intros Hd Hx Hy.
  rewrite num_pts_point by assumption.
  rewrite wrap32_minus_one. unfold stepLength.
  rewrite mag_of_point, !sub32_diag by assumption.
  change (div32 (S754_zero false) (S754_zero false)) with S754_nan.
  apply trail_nan.
Qed.

(** When start and end coincide, at finite coordinates, and the density
    is a number other than zero, the loop bound wraps: after the start
    pose come [2^32 - 1] poses whose coordinates are all NaN (the
    direction is [0 / 0]). *)
Theorem interpolateEdge_point_segment ub_conv libm (density_ x0 y0 : binary32)
    (out : list PoseStamped) :
  is_nonzero_number density_ = true ->
  is_finite x0 = true -> is_finite y0 = true ->
  interpolateEdge ub_conv libm density_ x0 y0 x0 y0 out
  = out ++ toMsg x0 y0
           :: replicate (Z.to_nat (UINT_MOD - 1)) (toMsg S754_nan S754_nan).
Proof.
  intros Hd Hx Hy.
  rewrite interpolateEdge_trail.
  now rewrite point_trail.
Qed.

Lemma interpolateEdge_point_segment_witness :
  is_nonzero_number f32_0_05 = true
  /\ is_finite (f32 3) = true /\ is_finite (f32 0) = true
  /\ interpolateEdge (fun _ => 0) no_libm f32_0_05 (f32 3) (f32 0) (f32 3) (f32 0) []
     = [] ++ toMsg (f32 3) (f32 0)
             :: replicate (Z.to_nat (UINT_MOD - 1)) (toMsg S754_nan S754_nan).
Proof.
  assert (is_nonzero_number f32_0_05 = true) as H1 by reflexivity.
  assert (is_finite (f32 3) = true) as H2 by reflexivity.
  assert (is_finite (f32 0) = true) as H3 by reflexivity.
  split; [exact H1 |]. split; [exact H2 |]. split; [exact H3 |].
  exact (interpolateEdge_point_segment (fun _ => 0) no_libm f32_0_05
           (f32 3) (f32 0) [] H1 H2 H3).
Defined.

(** ** The whole path *)

Lemma final_coords_cons (e : DirectionalEdge) (es : list DirectionalEdge)
    (fallback : Coordinates) :
  final_coords (e :: es) fallback = final_coords es (coords (end_ e)).
Proof.
  unfold final_coords. destruct es as [| e' es]; [reflexivity |].
  now rewrite last_cons_cons, last_cons_default.
Qed.

Lemma densify_final_coords (route : Route) :
  match edges route with
  | [] => toMsg (x (coords (start_node route))) (y (coords (start_node route)))
  | e0 :: es =>
      toMsg (x (coords (end_ (List.last es e0)))) (y (coords (end_ (List.last es e0))))
  end = toPose (final_coords (edges route) (coords (start_node route))).
Proof.
  unfold final_coords. destruct (edges route) as [| e0 es]; [reflexivity |].
  now rewrite last_cons_default.
Qed.

(** The poses of [densify], split into the partial edge's, the route
    edges' and the final one. *)
Lemma densify_poses ub_conv libm density_ (route : Route) (ri : ReroutingState)
    (frame : string) (now : Z) (pub : list Path) :
  poses (densify ub_conv libm density_ route ri frame now pub).1 =
  match partial_span ri with
  | Some (a, b) => interpolateEdge ub_conv libm density_ (x a) (y a) (x b) (y b) []
  | None => []
  end
  ++ flat_map (edge_poses ub_conv libm density_) (edges route)
  ++ [toPose (final_coords (edges route) (coords (start_node route)))].
Proof.
  unfold densify, partial_span. cbn [fst poses].
  rewrite fill_edges_flat_map, <- densify_final_coords.
  fold (edge_poses ub_conv libm density_).
  destruct (curr_edge ri) as [e |]; destruct (edges route) as [| e0 es];
    now rewrite <- ?app_assoc.
Qed.

Lemma regular_span_count libm density_ (a b : Coordinates) :
  regular_span libm density_ a b = true ->
  exists n : Z, spanCount libm density_ a b = Some n /\ 1 <= n < UINT_MOD.
Proof.
  unfold regular_span.
  destruct (spanCount libm density_ a b) as [n |]; [| discriminate].
  intros Hn. apply andb_true_iff in Hn as [Hlo Hhi].
  apply Z.leb_le in Hlo. apply Z.ltb_lt in Hhi.
  exists n. split; [reflexivity | lia].
Qed.

Lemma span_poses_count ub_conv libm density_ (a b : Coordinates) :
  regular_span libm density_ a b = true ->
  Z.of_nat (length (interpolateEdge ub_conv libm density_
                      (x a) (y a) (x b) (y b) []))
  = default 0 (spanCount libm density_ a b).
Proof.
  intros Hreg.
  destruct (regular_span_count libm density_ a b Hreg) as (n & Hn & Hfit).
  rewrite Hn. cbn [default from_option Datatypes.id].
  rewrite interpolateEdge_count.
  rewrite (num_pts_pointCount ub_conv libm density_ _ _ _ _ n Hn) by lia.
  rewrite wrap32_small by lia. lia.
Qed.

Lemma route_poses_count ub_conv libm density_ (es : list DirectionalEdge) :
  Forall (fun e => regular_edge libm density_ e = true) es ->
  Z.of_nat (length (flat_map (edge_poses ub_conv libm density_) es))
  = routeCount libm density_ es.
Proof.
  intros Hreg. induction Hreg as [| e es He _ IH]; [reflexivity |].
  cbn [flat_map routeCount map fold_right].
  rewrite length_app, Nat2Z.inj_add. unfold routeCount in IH. rewrite IH.
  unfold edge_poses at 1. now rewrite span_poses_count.
Qed.

(** On a route all of whose spans have a point count between 1 and
    [2^32 - 1] the path holds one pose per sample of every span (the
    partial edge's first, when there is one) and one final pose; the
    point count of a span is [ceil(mag / density_)] with the [float]
    quotient. *)
Theorem densify_pose_count ub_conv libm density_ (route : Route)
    (ri : ReroutingState) (frame : string) (now : Z) (pub : list Path) :
  Forall (fun e => regular_edge libm density_ e = true) (edges route) ->
  match partial_span ri with
  | Some (a, b) => regular_span libm density_ a b = true
  | None => True
  end ->
  Z.of_nat (length (poses (densify ub_conv libm density_ route ri frame now pub).1))
  = match partial_span ri with
    | Some (a, b) => default 0 (spanCount libm density_ a b)
    | None => 0
    end
    + routeCount libm density_ (edges route) + 1.
Proof.
  intros Hreg Hpartial.
  rewrite densify_poses, !length_app, !Nat2Z.inj_add.
  rewrite route_poses_count by assumption. cbn [length].
  destruct (partial_span ri) as [[a b] |].
  - rewrite span_poses_count by assumption. lia.
  - cbn [length]. lia.
Qed.

Lemma densify_pose_count_witness :
  let origin := {| x := f32 0; y := f32 0 |} in
  let near := {| x := f32_0_15; y := f32 0 |} in
  let far := {| x := f32 1; y := f32 0 |} in
  let node (i : Z) (c : Coordinates) :=
    {| nodeid := i; coords := c; node_metadata := {| data := ∅ |} |} in
  let route :=
    {| start_node := node 1 origin;
       edges := [ {| edgeid := 10; start := node 1 origin; end_ := node 2 near;
                     metadata := {| data := ∅ |} |};
                  {| edgeid := 11; start := node 2 near; end_ := node 3 far;
                     metadata := {| data := ∅ |} |} ] |} in
  let ri := {| curr_edge := None; closest_pt_on_edge := origin |} in
  routeCount no_libm f32_0_05 (edges route) = 3 + 17
  /\ Z.of_nat (length (poses (densify (fun _ => 0) no_libm f32_0_05
                                route ri "map" 0 []).1))
     = 0 + routeCount no_libm f32_0_05 (edges route) + 1.
Proof.
  cbv zeta. split; [vm_compute; reflexivity |].
  apply (densify_pose_count (fun _ => 0) no_libm f32_0_05).
  - repeat constructor.
  - exact I.
Defined.

Lemma route_poses_bounds ub_conv libm density_ (es : list DirectionalEdge) :
  Z.of_nat (length es)
  <= Z.of_nat (length (flat_map (edge_poses ub_conv libm density_) es))
  <= Z.of_nat (length es) * UINT_MOD.
Proof.
  induction es as [| e es IH]; [cbn; lia |].
  cbn [flat_map]. rewrite length_app, Nat2Z.inj_add.
  pose proof (interpolateEdge_count_bounds ub_conv libm density_
                (x (coords (start e))) (y (coords (start e)))
                (x (coords (end_ e))) (y (coords (end_ e)))) as Hb.
  fold (edge_poses ub_conv libm density_ e) in Hb.
  cbn [length]. lia.
Qed.

(** Whatever the coordinates and the density, every span contributes
    at least one pose and at most [2^32]: the path holds at least one
    pose more than it has spans, and is never empty. *)
Theorem densify_size_bounds ub_conv libm density_ (route : Route)
    (ri : ReroutingState) (frame : string) (now : Z) (pub : list Path) :
  Z.of_nat (length (edges route)) + match curr_edge ri with Some _ => 1 | None => 0 end + 1
  <= Z.of_nat (length (poses (densify ub_conv libm density_ route ri frame now pub).1))
  <= (Z.of_nat (length (edges route)) + match curr_edge ri with Some _ => 1 | None => 0 end) * UINT_MOD + 1.
Proof.
  rewrite densify_poses, !length_app, !Nat2Z.inj_add. cbn [length].
  pose proof (route_poses_bounds ub_conv libm density_ (edges route)) as Hr.
  unfold partial_span. destruct (curr_edge ri) as [e |].
  - pose proof (interpolateEdge_count_bounds ub_conv libm density_
                  (x (closest_pt_on_edge ri)) (y (closest_pt_on_edge ri))
                  (x (coords (end_ e))) (y (coords (end_ e)))) as Hp.
    lia.
  - cbn [length]. lia.
Qed.

(** Rerouting from the very end of the current edge: the partial span
    has length zero, so the path starts with the edge's end followed by
    [2^32 - 1] NaN poses before the poses of the route itself. *)
Theorem densify_rerouting_at_edge_end ub_conv libm density_ (route : Route)
    (e : DirectionalEdge) (frame : string) (now : Z) (pub : list Path) :
  is_nonzero_number density_ = true ->
  finite_coords (coords (end_ e)) = true ->
  poses (densify ub_conv libm density_ route
           {| curr_edge := Some e; closest_pt_on_edge := coords (end_ e) |}
           frame now pub).1
  = toPose (coords (end_ e))
    :: replicate (Z.to_nat (UINT_MOD - 1)) (toMsg S754_nan S754_nan)
    ++ poses (densify ub_conv libm density_ route
                {| curr_edge := None; closest_pt_on_edge := coords (end_ e) |}
                frame now pub).1.
Proof.
  intros Hd Hfin.
  apply andb_true_iff in Hfin as [Hx Hy].
  rewrite !densify_poses. unfold partial_span.
  cbn [curr_edge closest_pt_on_edge app].
  rewrite interpolateEdge_trail, point_trail by assumption.
  reflexivity.
Qed.

Lemma densify_rerouting_at_edge_end_witness :
  let far := {| x := f32 3; y := f32 0 |} in
  let node (i : Z) (c : Coordinates) :=
    {| nodeid := i; coords := c; node_metadata := {| data := ∅ |} |} in
  let e := {| edgeid := 10; start := node 1 far; end_ := node 2 far;
              metadata := {| data := ∅ |} |} in
  let route := {| start_node := node 2 far; edges := [] |} in
  is_nonzero_number f32_0_05 = true /\ finite_coords (coords (end_ e)) = true /\
  poses (densify (fun _ => 0) no_libm f32_0_05 route
           {| curr_edge := Some e; closest_pt_on_edge := coords (end_ e) |}
           "map" 0 []).1
  = toPose (coords (end_ e))
    :: replicate (Z.to_nat (UINT_MOD - 1)) (toMsg S754_nan S754_nan)
    ++ poses (densify (fun _ => 0) no_libm f32_0_05 route
                {| curr_edge := None; closest_pt_on_edge := coords (end_ e) |}
                "map" 0 []).1.
Proof.
  cbv zeta.
  split; [reflexivity |]. split; [reflexivity |].
  apply (densify_rerouting_at_edge_end (fun _ => 0) no_libm f32_0_05);
    reflexivity.
Defined.

(** * Properties of the route server *)

Section RouteServerFacts.
Context `{Environment}.

Lemma update_parameter_eq (p : NodeParameter) (s : RouteServer) :
  update_parameter p s =
  inr match planning_time_update p with
      | Some v => set_max_planning_time v s
      | None => s
      end.
Proof.
  unfold update_parameter, planning_time_update, get_type, as_double.
  destruct (get_parameter_value p); cbn; try reflexivity.
  now destruct (decide (get_name p = "max_planning_time")).
Qed.

Lemma update_parameters_last (ps : list NodeParameter) :
  forall s : RouteServer,
    update_parameters ps s =
    inr match last (omap planning_time_update ps) with
        | Some v => set_max_planning_time v s
        | None => s
        end.
Proof.
  induction ps as [| p ps IH]; intros s; [reflexivity |].
  cbn [update_parameters omap]. rewrite update_parameter_eq. cbn.
  rewrite IH. unfold omap. cbn. fold (omap planning_time_update ps).
  destruct (planning_time_update p) as [v |]; [| reflexivity].
  rewrite last_cons.
  now destruct (last (omap planning_time_update ps)).
Qed.

Lemma update_parameters_app (ps qs : list NodeParameter) :
  forall s : RouteServer,
    update_parameters (ps ++ qs) s =
    s' ← update_parameters ps s; update_parameters qs s'.
Proof.
  induction ps as [| p ps IH]; intros s; [reflexivity |].
  cbn [app update_parameters]. rewrite update_parameter_eq. cbn.
  apply IH.
Qed.

(** The parameter callback never throws and always answers
    [successful]; what it leaves in [max_planning_time_] is the value of
    the last double parameter named max_planning_time (nothing changes
    when there is none), and a request handled in two parts gives the
    same state. *)
Theorem dynamicParametersCallback_last_wins (parameters more : list NodeParameter)
    (s : RouteServer) :
  dynamicParametersCallback parameters s =
    inr (match last (omap planning_time_update parameters) with
         | Some v => set_max_planning_time v s
         | None => s
         end,
         {| successful := true; reason := EmptyString |})
  /\ dynamicParametersCallback (parameters ++ more) s =
     (r ← dynamicParametersCallback parameters s;
      dynamicParametersCallback more r.1).
Proof.
  unfold dynamicParametersCallback. split.
  - now rewrite update_parameters_last.
  - rewrite update_parameters_app, !update_parameters_last. cbn.
    now rewrite update_parameters_last.
Qed.


(** Every run of [computeRoute] on a server that exists ends the
    current goal exactly once, with its last call: [succeeded_current]
    carrying the time between the two clock readings when the server is
    active and no cancel is requested, [terminate_all] otherwise.  A
    pending goal is accepted before that on the success path only, and
    only on a preempt request; at most one line is logged, and the
    deadline warning only on the success path, for a non-zero
    [max_planning_time_] that the duration exceeds.  The state after the
    run is the state before it with these calls added to the action
    server and these lines to the log: no other member changes.
    Without an action server the first statement already dereferences
    the null pointer. *)
Theorem computeRoute_ends_goal_once (start_time end_time : Z) (s : RouteServer) :
  match action_server_ s with
  | None => computeRoute start_time end_time s = inl NullDereference
  | Some server =>
      exists (front : list ServerCall) (final : ServerCall)
             (notes : list LogRecord),
        computeRoute start_time end_time s =
        inr {| tf_ := tf_ s; transform_listener_ := transform_listener_ s;
               graph_vis_publisher_ := graph_vis_publisher_ s;
               action_server_ :=
                 Some {| is_server_active := is_server_active server;
                         is_cancel_requested := is_cancel_requested server;
                         is_preempt_requested := is_preempt_requested server;
                         server_calls := server_calls server ++ front ++ [final] |};
               graph_loader_ := graph_loader_ s; graph_ := graph_ s;
               route_frame_ := route_frame_ s; base_frame_ := base_frame_ s;
               max_planning_time_ := max_planning_time_ s;
               dyn_params_handler_ := dyn_params_handler_ s;
               bonded := bonded s;
               logger := logger s ++ notes |}
        /\ final =
           (if is_server_active server && negb (is_cancel_requested server)
            then succeeded_current (end_time - start_time) else terminate_all)
        /\ front =
           (if (is_server_active server && negb (is_cancel_requested server))
               && is_preempt_requested server
            then [accept_pending_goal] else [])
        /\ ends_goal final = true
        /\ forallb (fun c => negb (ends_goal c)) front = true
        /\ (length notes <= 1)%nat
        /\ existsb is_warn notes =
           (is_server_active server && negb (is_cancel_requested server))
           && (is_nonzero (max_planning_time_ s)
               && fgt (seconds (end_time - start_time)) (max_planning_time_ s))
  end.
Proof.
  unfold computeRoute.
  destruct (action_server_ s) as [server |] eqn:Hserver; [| reflexivity].
  cbn [deref mbind outcome_bind].
  destruct (is_server_active server) eqn:Hactive;
    [destruct (is_cancel_requested server) eqn:Hcancel;
       [| destruct (is_preempt_requested server) eqn:Hpreempt;
          destruct (is_nonzero (max_planning_time_ s)
                    && fgt (seconds (end_time - start_time)) (max_planning_time_ s))
            eqn:Hwarn] |];
    cbn [negb andb].
  1: eexists [], terminate_all, [_].
  2: eexists [accept_pending_goal], _, [_].
  3: eexists [accept_pending_goal], _, [].
  4: eexists [], _, [_].
  5: eexists [], _, [].
  6: eexists [], terminate_all, [_].
  all: split_and!; try reflexivity; try (cbn [length]; lia).
  all: unfold server_call, set_action_server, log;
    cbn [tf_ transform_listener_ graph_vis_publisher_ action_server_
         graph_loader_ graph_ route_frame_ base_frame_ max_planning_time_
         dyn_params_handler_ bonded logger
         is_server_active is_cancel_requested is_preempt_requested server_calls];
    rewrite ?Hactive, ?Hcancel, ?Hpreempt, <- ?app_assoc, ?app_nil_r; reflexivity.
Qed.

Lemma on_activate_eq (now : Z) (s : RouteServer) (server : ActionServer)
    (publisher : GraphPublisher) :
  action_server_ s = Some server ->
  graph_vis_publisher_ s = Some publisher ->
  on_activate now s = inr (activated now server publisher s, SUCCESS).
Proof.
  intros Hserver Hpublisher. unfold on_activate.
  cbn [log action_server_]. rewrite Hserver.
  cbn [deref mbind outcome_bind log set_action_server graph_vis_publisher_].
  rewrite Hpublisher. reflexivity.
Qed.

Lemma on_deactivate_eq (s : RouteServer) (server : ActionServer)
    (publisher : GraphPublisher) :
  action_server_ s = Some server ->
  graph_vis_publisher_ s = Some publisher ->
  on_deactivate s = inr (deactivated server publisher s, SUCCESS).
Proof.
  intros Hserver Hpublisher. unfold on_deactivate.
  cbn [log action_server_]. rewrite Hserver.
  cbn [deref mbind outcome_bind log set_action_server graph_vis_publisher_].
  rewrite Hpublisher. reflexivity.
Qed.

(** What a run of [computeRoute] does to the action server. *)
Lemma computeRoute_server (start_time end_time : Z) (s : RouteServer)
    (server : ActionServer) :
  action_server_ s = Some server ->
  exists s' : RouteServer,
    computeRoute start_time end_time s = inr s'
    /\ graph_vis_publisher_ s' = graph_vis_publisher_ s
    /\ action_server_ s' =
       Some (server_call
               (if is_server_active server && negb (is_cancel_requested server)
                then succeeded_current (end_time - start_time) else terminate_all)
               (if is_server_active server && negb (is_cancel_requested server)
                   && is_preempt_requested server
                then server_call accept_pending_goal server else server)).
Proof.
  intros Hserver. unfold computeRoute. rewrite Hserver.
  cbn [deref mbind outcome_bind].
  destruct (is_server_active server); cbn [negb andb];
    [destruct (is_cancel_requested server); cbn [negb andb] |].
  - eexists. split; [reflexivity |]. split; reflexivity.
  - destruct (is_nonzero (max_planning_time_ s)
              && fgt (seconds (end_time - start_time)) (max_planning_time_ s));
      eexists; (split; [reflexivity |]); split; reflexivity.
  - eexists. split; [reflexivity |]. split; reflexivity.
Qed.

(** Activation followed by deactivation: both succeed on a server
    that has its action server and publisher; in between the action
    server and the publisher are active, the parameter callback is
    registered and the bond exists; afterwards all four are off again
    and the state differs from the one before only by that, the graph
    message published on activation and the two log lines. *)
Theorem activate_then_deactivate (now : Z) (s : RouteServer)
    (server : ActionServer) (publisher : GraphPublisher) :
  action_server_ s = Some server ->
  graph_vis_publisher_ s = Some publisher ->
  exists s1 s2 : RouteServer,
    on_activate now s = inr (s1, SUCCESS)
    /\ on_deactivate s1 = inr (s2, SUCCESS)
    /\ action_server_ s1 = Some (set_server_active true server)
    /\ (exists p : GraphPublisher,
          graph_vis_publisher_ s1 = Some p /\ publisher_active p = true)
    /\ dyn_params_handler_ s1 = true
    /\ bonded s1 = true
    /\ s2 =
       {| tf_ := tf_ s; transform_listener_ := transform_listener_ s;
          graph_vis_publisher_ :=
            Some {| publisher_active := false;
                    published :=
                      published publisher
                      ++ [{| markers_graph := graph_ s;
                             markers_frame := route_frame_ s;
                             markers_stamp := now |}] |};
          action_server_ := Some (set_server_active false server);
          graph_loader_ := graph_loader_ s; graph_ := graph_ s;
          route_frame_ := route_frame_ s; base_frame_ := base_frame_ s;
          max_planning_time_ := max_planning_time_ s;
          dyn_params_handler_ := false; bonded := false;
          logger :=
            logger s
            ++ [{| severity := INFO; format := "Activating"; args := [] |};
                {| severity := INFO; format := "Deactivating"; args := [] |}] |}.
Proof.
  intros Hserver Hpublisher.
  exists (activated now server publisher s).
  exists (deactivated (set_server_active true server)
            {| publisher_active := true;
               published :=
                 published publisher
                 ++ [{| markers_graph := graph_ s;
                        markers_frame := route_frame_ s;
                        markers_stamp := now |}] |}
            (activated now server publisher s)).
  split; [now apply on_activate_eq |].
  split; [now apply on_deactivate_eq |].
  split; [reflexivity |].
  split; [eexists; split; reflexivity |].
  split; [reflexivity |]. split; [reflexivity |].
  unfold deactivated, activated. cbn. now rewrite <- app_assoc.
Qed.

(** [on_configure] answers FAILURE exactly when the graph does not
    load, and by then the tf buffer, its listener, the publisher, the
    action server and the graph loader exist and the three parameters
    are read: a failed configuration leaves all of them in place.  A
    cleanup that follows releases the four handles and empties the
    graph, but keeps the graph loader and the parameters as read. *)
Theorem configure_then_cleanup (s : RouteServer) (rf bf : string) (mpt : double) :
  declared_parameter "route_frame" (PString "map") = PString rf ->
  declared_parameter "base_frame" (PString "base_link") = PString bf ->
  declared_parameter "max_planning_time" (PDouble (f64 2)) = PDouble mpt ->
  exists s1 : RouteServer,
    on_configure s
    = inr (s1, if (loadGraphFromFile new_tf_buffer rf (graph_ s)).1
               then SUCCESS else FAILURE)
    /\ tf_ s1 = Some new_tf_buffer
    /\ transform_listener_ s1 = Some new_tf_buffer
    /\ graph_vis_publisher_ s1 = Some new_graph_publisher
    /\ action_server_ s1 = Some new_action_server
    /\ graph_ s1 = (loadGraphFromFile new_tf_buffer rf (graph_ s)).2
    /\ on_cleanup s1 =
       ({| tf_ := None; transform_listener_ := None;
           graph_vis_publisher_ := None; action_server_ := None;
           graph_loader_ := Some rf; graph_ := [];
           route_frame_ := rf; base_frame_ := bf; max_planning_time_ := mpt;
           dyn_params_handler_ := dyn_params_handler_ s; bonded := bonded s;
           logger :=
             logger s
             ++ [{| severity := INFO; format := "Configuring"; args := [] |};
                 {| severity := INFO; format := "Cleaning up"; args := [] |}] |},
        SUCCESS).
Proof.
  intros Hrf Hbf Hmpt. unfold on_configure. rewrite Hrf, Hbf, Hmpt. cbn.
  destruct (loadGraphFromFile new_tf_buffer rf (graph_ s)) as [[|] g]; cbn;
    eexists; (split; [reflexivity |]); cbn; split_and!; try reflexivity;
    unfold on_cleanup, log; cbn; now rewrite <- app_assoc.
Qed.

(** [on_cleanup] always succeeds and leaves the tf buffer, its
    listener, the publisher and the action server null and the graph
    empty, while the graph loader, the parameter callback and the bond
    stay as they were; from that state activation, deactivation and
    route computation run into a null pointer. *)
Theorem cleanup_releases (now start_time end_time : Z) (s : RouteServer) :
  (on_cleanup s).2 = SUCCESS
  /\ tf_ (on_cleanup s).1 = None
  /\ transform_listener_ (on_cleanup s).1 = None
  /\ graph_vis_publisher_ (on_cleanup s).1 = None
  /\ action_server_ (on_cleanup s).1 = None
  /\ graph_ (on_cleanup s).1 = []
  /\ graph_loader_ (on_cleanup s).1 = graph_loader_ s
  /\ dyn_params_handler_ (on_cleanup s).1 = dyn_params_handler_ s
  /\ bonded (on_cleanup s).1 = bonded s
  /\ on_activate now (on_cleanup s).1 = inl NullDereference
  /\ on_deactivate (on_cleanup s).1 = inl NullDereference
  /\ computeRoute start_time end_time (on_cleanup s).1 = inl NullDereference.
Proof. split_and!; reflexivity. Qed.

Lemma to_route_frame_outcome (what named : string) (pose : StampedPose)
    (s : RouteServer) (tf : TfBuffer) :
  tf_ s = Some tf ->
  exists (pose' : StampedPose) (notes : list LogRecord),
    to_route_frame what named pose s
    = inr (pose', fold_left (fun s r => log (severity r) (format r) (args r) s) notes s)
    /\ (length notes <= 1)%nat
    /\ (notes = [] <-> header_frame_id pose = route_frame_ s).
Proof.
  intros Htf. unfold to_route_frame.
  destruct (decide (header_frame_id pose <> route_frame_ s)) as [Hne | Heq].
  - cbn. rewrite Htf. cbn.
    eexists _, [{| severity := INFO; format := what;
                   args := [LString named; LString (route_frame_ s)] |}].
    split; [reflexivity |]. split; [cbn; lia |].
    split; [discriminate | contradiction].
  - exists pose, []. split; [reflexivity |]. split; [cbn; lia |].
    split; [intros _; now apply dec_stable | reflexivity].
Qed.


(** The lifecycle gates route computation: once activated, a run
    without a cancel request ends with [succeeded_current]; once
    deactivated again, a run only calls [terminate_all]. *)
Theorem lifecycle_gates_route_computation (now start_time end_time : Z)
    (s : RouteServer) (server : ActionServer) (publisher : GraphPublisher) :
  action_server_ s = Some server ->
  graph_vis_publisher_ s = Some publisher ->
  is_cancel_requested server = false ->
  exists (s1 s2 s3 s4 : RouteServer) (a2 a3 a4 : ActionServer),
    on_activate now s = inr (s1, SUCCESS)
    /\ computeRoute start_time end_time s1 = inr s2
    /\ action_server_ s2 = Some a2
    /\ last (server_calls a2) = Some (succeeded_current (end_time - start_time))
    /\ on_deactivate s2 = inr (s3, SUCCESS)
    /\ action_server_ s3 = Some a3
    /\ computeRoute start_time end_time s3 = inr s4
    /\ action_server_ s4 = Some a4
    /\ server_calls a4 = server_calls a3 ++ [terminate_all].
Proof.
  intros Hserver Hpublisher Hcancel.
  pose proof (on_activate_eq now s server publisher Hserver Hpublisher) as H1.
  set (s1 := activated now server publisher s) in *.
  destruct (computeRoute_server start_time end_time s1
              (set_server_active true server) eq_refl)
    as (s2 & H2 & Hpub2 & Hsrv2).
  cbn [set_server_active is_server_active is_cancel_requested
       is_preempt_requested] in Hsrv2.
  rewrite Hcancel in Hsrv2. cbn [negb andb] in Hsrv2.
  pose proof (on_deactivate_eq s2 _ _ Hsrv2 Hpub2) as H3.
  match type of H3 with
  | _ = inr (?st, _) => set (s3 := st) in *
  end.
  destruct (computeRoute_server start_time end_time s3 _ eq_refl)
    as (s4 & H4 & _ & Hsrv4).
  cbn [set_server_active is_server_active andb] in Hsrv4.
  eexists s1, s2, s3, s4, _, _, _.
  split; [exact H1 |]. split; [exact H2 |]. split; [exact Hsrv2 |].
  split; [apply last_snoc |].
  split; [exact H3 |]. split; [reflexivity |].
  split; [exact H4 |]. split; [exact Hsrv4 |]. reflexivity.
Qed.

Lemma is_nonzero_zero : is_nonzero (f64 0) = false.
Proof. reflexivity. Qed.

(** Setting max_planning_time to 0.0 through the parameter callback
    turns the deadline warning off: whatever else the request holds
    before it and however long a later run of [computeRoute] takes, that
    run logs no warning. *)
Theorem zero_planning_time_disables_warning (parameters : list NodeParameter)
    (start_time end_time : Z) (s : RouteServer) :
  exists (s1 : RouteServer) (r : SetParametersResult),
    dynamicParametersCallback
      (parameters ++ [{| get_name := "max_planning_time";
                         get_parameter_value := PDouble (f64 0) |}]) s
    = inr (s1, r)
    /\ max_planning_time_ s1 = f64 0
    /\ match computeRoute start_time end_time s1 with
       | inr s2 =>
           exists notes : list LogRecord,
             logger s2 = logger s1 ++ notes /\ existsb is_warn notes = false
       | inl _ => action_server_ s = None
       end.
Proof.
  unfold dynamicParametersCallback.
  rewrite update_parameters_last.
  assert (last (omap planning_time_update
                  (parameters ++ [{| get_name := "max_planning_time";
                                     get_parameter_value := PDouble (f64 0) |}]))
          = Some (f64 0)) as ->.
  { rewrite omap_app, last_app. unfold planning_time_update at 1. cbn.
    now rewrite decide_True by reflexivity. }
  cbn [mbind outcome_bind].
  eexists _, _. split; [reflexivity |]. split; [reflexivity |].
  unfold computeRoute. cbn -[is_nonzero fgt seconds].
  destruct (action_server_ s) as [server |]; cbn -[is_nonzero fgt seconds];
    [| reflexivity].
  rewrite is_nonzero_zero.
  destruct (is_server_active server); cbn -[is_nonzero fgt seconds];
    [destruct (is_cancel_requested server); cbn -[is_nonzero fgt seconds] |].
  - eexists [_]. split; reflexivity.
  - exists []. split; [now rewrite app_nil_r | reflexivity].
  - eexists [_]. split; reflexivity.
Qed.

End RouteServerFacts.

Lemma activate_then_deactivate_witness :
  exists s1 s2 : @RouteServer still_environment,
    on_activate 7 configured_server = inr (s1, SUCCESS)
    /\ on_deactivate s1 = inr (s2, SUCCESS)
    /\ action_server_ s2 = action_server_ configured_server
    /\ dyn_params_handler_ s2 = false /\ bonded s2 = false.
Proof.
  destruct (@activate_then_deactivate still_environment 7 configured_server
              _ _ eq_refl eq_refl)
    as (s1 & s2 & H1 & H2 & _ & _ & _ & _ & ->).
  exists s1. eexists. split; [exact H1 |]. split; [exact H2 |].
  split_and!; reflexivity.
Defined.

Lemma configure_then_cleanup_witness :
  exists s1 : @RouteServer still_environment,
    on_configure unconfigured_server = inr (s1, SUCCESS)
    /\ action_server_ s1 = Some (@new_action_server still_environment)
    /\ action_server_ (on_cleanup s1).1 = None
    /\ route_frame_ (on_cleanup s1).1 = "map"
    /\ max_planning_time_ (on_cleanup s1).1 = f64 2.
Proof.
  destruct (@configure_then_cleanup still_environment unconfigured_server
              "map" "base_link" (f64 2) eq_refl eq_refl eq_refl)
    as (s1 & H1 & _ & _ & _ & Hserver & _ & Hclean).
  exists s1. split; [exact H1 |]. split; [exact Hserver |].
  rewrite Hclean. split_and!; reflexivity.
Defined.

Lemma lifecycle_gates_route_computation_witness :
  exists (s1 s2 : @RouteServer still_environment) (a2 : ActionServer),
    on_activate 7 configured_server = inr (s1, SUCCESS)
    /\ computeRoute 10 25 s1 = inr s2
    /\ action_server_ s2 = Some a2
    /\ last (server_calls a2) = Some (succeeded_current (25 - 10)).
Proof.
  destruct (@lifecycle_gates_route_computation still_environment 7 10 25
              configured_server _ _ eq_refl eq_refl eq_refl)
    as (s1 & s2 & _ & _ & a2 & _ & _ & H1 & H2 & H3 & H4 & _).
  exists s1, s2, a2. split; [exact H1 |]. split; [exact H2 |].
  split; [exact H3 | exact H4].
Defined.
